(** * MqttClient.h: the MqttClient and MqttConnection facades

    A shallow embedding of [include/aws/crt/mqtt/MqttClient.h].  The header
    declares two classes over an external MQTT engine.  Three member functions
    have their bodies in the header (the handler setters); the special members
    of [MqttConnection] are defaulted or deleted there, so their behaviour is
    fixed by the member list; every other member function is only declared.

    The development has these layers:
    - [Decl]: the declarations themselves (access, definition kind, exception
      specification, data members), as tables;
    - [Cpp]: what a call does with an exception, and what a member-wise move
      does with a member of each type;
    - [Engine]: the answers of the external engine;
    - [Conn] and [Client]: the two classes as records with their operations;
    - [World]: a store of live objects and the actions of a user program.

    A definition whose body is not in the header says so in its comment. *)

From Stdlib Require Import ZArith List Bool String Lia.
From stdpp Require Import gmap strings.

Local Open Scope Z_scope.

(** ** Declarations *)

Module Decl.

Inductive class := class_MqttConnection | class_MqttClient.

(** The five handler aliases of lines 43-61. *)
Inductive handler_kind :=
  | EvConnectionFailed
  | EvConnAck
  | EvDisconnect
  | EvPublishReceived
  | EvOperationComplete.

(** Every member function the header declares, in the order of the file. *)
Inductive member_function :=
  (* class MqttConnection, public *)
  | Connection_dtor
  | Connection_copy_ctor
  | Connection_move_ctor
  | Connection_copy_assign
  | Connection_move_assign
  | Connection_operator_bool
  | Connection_LastError
  | SetOnConnectionFailedHandler
  | SetOnConnAckHandler
  | SetOnDisconnectHandler
  | SetWill
  | SetLogin
  | Connect
  | Disconnect
  | Subscribe
  | Unsubscribe
  | Publish
  | Ping
  (* class MqttConnection, private *)
  | Connection_ctor
  | s_onConnectionFailed
  | s_onConnAck
  | s_onDisconnect
  | s_onPublish
  | s_onOpComplete
  (* class MqttClient, public *)
  | Client_ctor
  | Client_dtor
  | Client_copy_ctor
  | Client_move_ctor
  | Client_copy_assign
  | Client_move_assign
  | Client_operator_bool
  | Client_LastError
  | NewConnection.

Definition class_of (f : member_function) : class :=
  match f with
  | Client_ctor | Client_dtor | Client_copy_ctor | Client_move_ctor
  | Client_copy_assign | Client_move_assign | Client_operator_bool
  | Client_LastError | NewConnection => class_MqttClient
  | _ => class_MqttConnection
  end.

Inductive access := Public | Private.

Definition access_of (f : member_function) : access :=
  match f with
  | Connection_ctor | s_onConnectionFailed | s_onConnAck | s_onDisconnect
  | s_onPublish | s_onOpComplete => Private
  | _ => Public
  end.

(** [friend class MqttClient;] in MqttConnection, and the converse. *)
Definition friends (c : class) : list class :=
  match c with
  | class_MqttConnection => [class_MqttClient]
  | class_MqttClient => [class_MqttConnection]
  end.

Inductive special_member := Dtor | CopyCtor | MoveCtor | CopyAssign | MoveAssign.

Definition special_of (f : member_function) : option special_member :=
  match f with
  | Connection_dtor | Client_dtor => Some Dtor
  | Connection_copy_ctor | Client_copy_ctor => Some CopyCtor
  | Connection_move_ctor | Client_move_ctor => Some MoveCtor
  | Connection_copy_assign | Client_copy_assign => Some CopyAssign
  | Connection_move_assign | Client_move_assign => Some MoveAssign
  | _ => None
  end.

Definition is_constructor (f : member_function) : bool :=
  match f with
  | Connection_copy_ctor | Connection_move_ctor | Connection_ctor
  | Client_ctor | Client_copy_ctor | Client_move_ctor => true
  | _ => false
  end.

(** How the header defines the function: [= delete], [= default], a body
    between braces, or a declaration whose body is in another file. *)
Inductive definition_kind := Deleted | Defaulted | InlineBody | DeclaredOnly.

Definition definition_of (f : member_function) : definition_kind :=
  match f with
  | Connection_dtor | Connection_move_ctor | Connection_move_assign => Defaulted
  | Connection_copy_ctor | Connection_copy_assign
  | Client_copy_ctor | Client_copy_assign => Deleted
  | SetOnConnectionFailedHandler | SetOnConnAckHandler
  | SetOnDisconnectHandler => InlineBody
  | _ => DeclaredOnly
  end.

(** The exception specification as written. *)
Inductive exception_spec := Noexcept | Unspecified.

Definition exception_spec_of (f : member_function) : exception_spec :=
  match f with
  | Connection_operator_bool | Connection_LastError
  | SetOnConnectionFailedHandler | SetOnConnAckHandler | SetOnDisconnectHandler
  | SetWill | SetLogin | Connect | Disconnect
  | Subscribe | Unsubscribe | Publish
  | Connection_ctor
  | Client_ctor | Client_move_ctor | Client_move_assign
  | Client_operator_bool | Client_LastError | NewConnection => Noexcept
  | _ => Unspecified
  end.

Inductive return_type :=
  | R_none            (* constructors and destructors *)
  | R_void
  | R_bool
  | R_int
  | R_uint16_t
  | R_reference (c : class)
  | R_value (c : class).

Definition return_type_of (f : member_function) : return_type :=
  match f with
  | Connection_dtor | Connection_copy_ctor | Connection_move_ctor
  | Connection_ctor
  | Client_ctor | Client_dtor | Client_copy_ctor | Client_move_ctor => R_none
  | Connection_copy_assign | Connection_move_assign =>
      R_reference class_MqttConnection
  | Client_copy_assign | Client_move_assign => R_reference class_MqttClient
  | Connection_operator_bool | Client_operator_bool => R_bool
  | Connection_LastError | Client_LastError => R_int
  | Subscribe | Unsubscribe | Publish => R_uint16_t
  | NewConnection => R_value class_MqttConnection
  | _ => R_void
  end.

(** The handlers a member function receives as arguments. *)
Definition handler_params (f : member_function) : list handler_kind :=
  match f with
  | SetOnConnectionFailedHandler => [EvConnectionFailed]
  | SetOnConnAckHandler => [EvConnAck]
  | SetOnDisconnectHandler => [EvDisconnect]
  | Subscribe => [EvPublishReceived; EvOperationComplete]
  | Unsubscribe => [EvOperationComplete]
  | Publish => [EvOperationComplete]
  | _ => []
  end.

(** Types of the data members. *)
Inductive member_type :=
  | T_MqttClient_ptr                  (* MqttClient * *)
  | T_aws_mqtt_client_connection_ptr  (* aws_mqtt_client_connection * *)
  | T_function (k : handler_kind)     (* std::function<...> *)
  | T_int
  | T_bool
  | T_aws_mqtt_client.                (* aws_mqtt_client, held by value *)

(** Lines 151-158 and 203-205. *)
Definition data_members (c : class) : list (string * member_type) :=
  match c with
  | class_MqttConnection =>
      [ ("m_owningClient"%string, T_MqttClient_ptr);
        ("m_underlyingConnection"%string, T_aws_mqtt_client_connection_ptr);
        ("m_onConnectionFailed"%string, T_function EvConnectionFailed);
        ("m_onConnAck"%string, T_function EvConnAck);
        ("m_onDisconnect"%string, T_function EvDisconnect);
        ("m_lastError"%string, T_int);
        ("m_isInit"%string, T_bool) ]
  | class_MqttClient =>
      [ ("m_client"%string, T_aws_mqtt_client);
        ("m_lastError"%string, T_int);
        ("m_isInit"%string, T_bool) ]
  end.

Definition member_type_eqb (a b : member_type) : bool :=
  match a, b with
  | T_MqttClient_ptr, T_MqttClient_ptr => true
  | T_aws_mqtt_client_connection_ptr, T_aws_mqtt_client_connection_ptr => true
  | T_int, T_int => true
  | T_bool, T_bool => true
  | T_aws_mqtt_client, T_aws_mqtt_client => true
  | T_function EvConnectionFailed, T_function EvConnectionFailed => true
  | T_function EvConnAck, T_function EvConnAck => true
  | T_function EvDisconnect, T_function EvDisconnect => true
  | T_function EvPublishReceived, T_function EvPublishReceived => true
  | T_function EvOperationComplete, T_function EvOperationComplete => true
  | _, _ => false
  end.

(** How many data members of class [c] have type [t]. *)
Definition count_members (c : class) (t : member_type) : nat :=
  length (filter (fun m => member_type_eqb (snd m) t) (data_members c)).

(** The event kinds for which class [c] stores a handler. *)
Definition callback_slots (c : class) : list handler_kind :=
  flat_map (fun m => match snd m with T_function k => [k] | _ => [] end)
           (data_members c).

(** A public, non-deleted member function: what a user of the class can call. *)
Definition public_operation (f : member_function) : bool :=
  match access_of f, definition_of f with
  | Public, Deleted => false
  | Public, _ => true
  | Private, _ => false
  end.

End Decl.

(** ** Calls, exceptions and member-wise moves *)

Module Cpp.

(** What the caller of a function observes. *)
Inductive outcome (A : Type) :=
  | Returned (a : A)
  | Thrown
  | Terminated.
Arguments Returned {A} a.
Arguments Thrown {A}.
Arguments Terminated {A}.

Definition propagates {A} (o : outcome A) : bool :=
  match o with Thrown => true | _ => false end.

(** An exception that reaches the boundary of a [noexcept] function ends the
    program instead of reaching the caller. *)
Definition noexcept_guard {A} (o : outcome A) : outcome A :=
  match o with Thrown => Terminated | _ => o end.

(** Moving or destroying a member of this type cannot throw.  Pointers,
    integers, booleans and the C struct are trivially movable and
    destructible; the moves of [std::function] hand over the stored target
    without copying it. *)
Definition nothrow_member (t : Decl.member_type) : bool :=
  match t with
  | Decl.T_MqttClient_ptr | Decl.T_aws_mqtt_client_connection_ptr
  | Decl.T_int | Decl.T_bool | Decl.T_aws_mqtt_client
  | Decl.T_function _ => true
  end.

(** The exception specification in force: the written one, or, for a
    destructor and for a defaulted special member without a written one, the
    one derived from the data members. *)
Definition effective_noexcept (f : Decl.member_function) : bool :=
  match Decl.exception_spec_of f with
  | Decl.Noexcept => true
  | Decl.Unspecified =>
      match Decl.special_of f, Decl.definition_of f with
      | Some Decl.Dtor, _ | Some _, Decl.Defaulted =>
          forallb (fun m => nothrow_member (snd m))
                  (Decl.data_members (Decl.class_of f))
      | _, _ => false
      end
  end.

(** Calling [f] when its body ends as [body]. *)
Definition call {A} (f : Decl.member_function) (body : outcome A) : outcome A :=
  if effective_noexcept f then noexcept_guard body else body.

(** A [std::function<H>]: empty, or holding one target. *)
Definition std_function (H : Type) : Type := option H.

(** A member-wise move yields the member of the destination and what is left
    in the source.  Pointers, integers and booleans are copied.  A moved-from
    [std::function] is left empty. *)
Definition move_scalar {A : Type} (x : A) : A * A := (x, x).

Definition move_function {H : Type} (f : std_function H)
  : std_function H * std_function H := (f, None).

Definition to_uint16 (z : Z) : Z := z mod 65536.

End Cpp.

(** ** The external engine, as far as the facades see it *)

Module Engine.

(** Addresses of facade objects; [None] is the null pointer. *)
Definition address := nat.

(** Identities of engine-side objects (sessions and client contexts). *)
Definition handle := nat.

(** Modelled from the spec: the engine's interface, aws/mqtt/client.h, is
    not part of the sources.  The answer of an engine call is success with
    a value, or an error code. *)
Inductive engine_result (A : Type) :=
  | EngineOk (a : A)
  | EngineError (code : Z).
Arguments EngineOk {A} a.
Arguments EngineError {A} code.

(** Modelled from the spec: the error code of a call that did not fail; a
    failure is reported by a nonzero code. *)
Definition AWS_ERROR_SUCCESS : Z := 0.

(** Modelled from the spec: aws/crt/Types.h, which declares the types the
    header uses in its signatures, is not part of the sources.  The return
    code of a connack and the quality of service are enumerations, held as
    integers. *)
Definition ReturnCode := Z.
Definition QOS := Z.

(** Modelled from the spec: aws/crt/Types.h is not part of the sources.  A
    payload is a sequence of bytes. *)
Definition ByteBuf := list Byte.byte.

End Engine.

(** ** class MqttConnection *)

Module Conn.
Import Engine Cpp.

Section WithUserState.

(** The state that the closures of the user program read and write. *)
Context {U : Type}.

(** Lines 43-61.  [MqttConnection&] is the address of the connection. *)
Definition OnConnectionFailedHandler := address -> U -> U.
Definition OnConnAckHandler := address -> ReturnCode -> bool -> U -> U.
Definition OnDisconnectHandler := address -> U -> U.
Definition OnPublishReceivedHandler := address -> string -> ByteBuf -> U -> U.
Definition OnOperationCompleteHandler := address -> Z -> U -> U.

(** Lines 151-158. *)
Record MqttConnection := {
  m_owningClient : option address;
  m_underlyingConnection : option handle;
  m_onConnectionFailed : std_function OnConnectionFailedHandler;
  m_onConnAck : std_function OnConnAckHandler;
  m_onDisconnect : std_function OnDisconnectHandler;
  m_lastError : Z;
  m_isInit : bool
}.

(** Lines 80-93: each setter move-assigns its argument to one slot. *)
Definition SetOnConnectionFailedHandler
    (onConnectionFailed : std_function OnConnectionFailedHandler)
    (c : MqttConnection) : MqttConnection :=
  {| m_owningClient := m_owningClient c;
     m_underlyingConnection := m_underlyingConnection c;
     m_onConnectionFailed := onConnectionFailed;
     m_onConnAck := m_onConnAck c;
     m_onDisconnect := m_onDisconnect c;
     m_lastError := m_lastError c;
     m_isInit := m_isInit c |}.

Definition SetOnConnAckHandler
    (onConnAck : std_function OnConnAckHandler)
    (c : MqttConnection) : MqttConnection :=
  {| m_owningClient := m_owningClient c;
     m_underlyingConnection := m_underlyingConnection c;
     m_onConnectionFailed := m_onConnectionFailed c;
     m_onConnAck := onConnAck;
     m_onDisconnect := m_onDisconnect c;
     m_lastError := m_lastError c;
     m_isInit := m_isInit c |}.

Definition SetOnDisconnectHandler
    (onDisconnect : std_function OnDisconnectHandler)
    (c : MqttConnection) : MqttConnection :=
  {| m_owningClient := m_owningClient c;
     m_underlyingConnection := m_underlyingConnection c;
     m_onConnectionFailed := m_onConnectionFailed c;
     m_onConnAck := m_onConnAck c;
     m_onDisconnect := onDisconnect;
     m_lastError := m_lastError c;
     m_isInit := m_isInit c |}.

(** Line 73, [MqttConnection(MqttConnection&&) = default]: every member is
    moved in declaration order.  The result is the new object and the source
    as the move leaves it. *)
Definition move_construct (src : MqttConnection)
  : MqttConnection * MqttConnection :=
  let oc := move_scalar (m_owningClient src) in
  let uc := move_scalar (m_underlyingConnection src) in
  let cf := move_function (m_onConnectionFailed src) in
  let ca := move_function (m_onConnAck src) in
  let di := move_function (m_onDisconnect src) in
  let le := move_scalar (m_lastError src) in
  let ii := move_scalar (m_isInit src) in
  ({| m_owningClient := fst oc; m_underlyingConnection := fst uc;
      m_onConnectionFailed := fst cf; m_onConnAck := fst ca;
      m_onDisconnect := fst di; m_lastError := fst le; m_isInit := fst ii |},
   {| m_owningClient := snd oc; m_underlyingConnection := snd uc;
      m_onConnectionFailed := snd cf; m_onConnAck := snd ca;
      m_onDisconnect := snd di; m_lastError := snd le; m_isInit := snd ii |}).

(** Line 75, [operator =(MqttConnection&&) = default]: every member of the
    destination is move-assigned from the source, so nothing of the old
    destination survives. *)
Definition move_assign (dst src : MqttConnection)
  : MqttConnection * MqttConnection :=
  move_construct src.

(** A validity check that reads the four members that are not handlers.  The
    body of [operator bool] is not in the header; whatever it is, it can
    only read the members. *)
Definition scalar_check
    (valid : option address -> option handle -> Z -> bool -> bool)
    (c : MqttConnection) : bool :=
  valid (m_owningClient c) (m_underlyingConnection c)
        (m_lastError c) (m_isInit c).

(** Modelled from the spec: the body of [MqttConnection::operator bool]
    (line 77) is not in the header.  The validity check reports the
    initialization flag. *)
Definition operator_bool (c : MqttConnection) : bool := m_isInit c.

(** Modelled from the spec: the body of [MqttConnection::LastError]
    (line 78) is not in the header.  It reports the stored error code. *)
Definition LastError (c : MqttConnection) : Z := m_lastError c.

(** Modelled from the spec: the body of the private constructor (lines
    147-149) is not in the header.  The new connection refers back to the
    client that creates it and holds the session handle the engine
    allocated; when the engine fails, the error code is kept and the
    connection is not initialized.  No handler is set.  The host name, the
    port and the socket and TLS options go to the engine, whose answer is
    [r]. *)
Definition Connection_ctor (client : address) (r : engine_result handle)
  : MqttConnection :=
  match r with
  | EngineOk h =>
      {| m_owningClient := Some client; m_underlyingConnection := Some h;
         m_onConnectionFailed := None; m_onConnAck := None;
         m_onDisconnect := None;
         m_lastError := AWS_ERROR_SUCCESS; m_isInit := true |}
  | EngineError code =>
      {| m_owningClient := Some client; m_underlyingConnection := None;
         m_onConnectionFailed := None; m_onConnAck := None;
         m_onDisconnect := None;
         m_lastError := code; m_isInit := false |}
  end.

(** Modelled from the spec: the bodies of the static trampolines (lines
    160-165) are not in the header.  An engine event delivered to the
    connection at address [self], the user data of the engine callback, runs
    the handler of its slot, if one is set; the handlers for a failed
    connection and for a disconnect take no error code. *)
Definition s_onConnectionFailed (self : address) (c : MqttConnection)
    (errorCode : Z) (u : U) : U :=
  match m_onConnectionFailed c with Some h => h self u | None => u end.

(** Modelled from the spec: as [s_onConnectionFailed]; the connack handler
    receives the return code and the session-present flag. *)
Definition s_onConnAck (self : address) (c : MqttConnection)
    (return_code : ReturnCode) (session_present : bool) (u : U) : U :=
  match m_onConnAck c with
  | Some h => h self return_code session_present u
  | None => u
  end.

(** Modelled from the spec: as [s_onConnectionFailed], for the disconnect
    slot. *)
Definition s_onDisconnect (self : address) (c : MqttConnection)
    (errorCode : Z) (u : U) : U :=
  match m_onDisconnect c with Some h => h self u | None => u end.

(** What Subscribe, Unsubscribe and Publish hand to the engine. *)
Inductive request :=
  | ReqSubscribe (topicFilter : string) (qos : QOS)
      (onPublish : std_function OnPublishReceivedHandler)
      (onOpComplete : std_function OnOperationCompleteHandler)
  | ReqUnsubscribe (topicFilter : string)
      (onOpComplete : std_function OnOperationCompleteHandler)
  | ReqPublish (topic : string) (qos : QOS) (retain : bool)
      (payload : ByteBuf)
      (onOpComplete : std_function OnOperationCompleteHandler).

Section Submission.

(** The engine: its state, and its answer to a request, which is the packet
    identifier it assigned or an error. *)
Variable engine : Type.
Variable engine_submit : request -> engine -> engine_result Z * engine.

(** Modelled from the spec: the bodies of Subscribe, Unsubscribe and Publish
    (lines 123-139) are not in the header.  Each hands its request to the
    engine and returns at once, with the packet identifier as a [uint16_t]
    when the engine accepted the request and with zero when it did not; the
    error code of a refused request is kept as the last error.  [submit] is
    what the three have in common. *)
Definition submit (req : request) (c : MqttConnection) (e : engine)
  : Z * MqttConnection * engine :=
  match engine_submit req e with
  | (EngineOk packetId, e') => (to_uint16 packetId, c, e')
  | (EngineError code, e') =>
      (0,
       {| m_owningClient := m_owningClient c;
          m_underlyingConnection := m_underlyingConnection c;
          m_onConnectionFailed := m_onConnectionFailed c;
          m_onConnAck := m_onConnAck c;
          m_onDisconnect := m_onDisconnect c;
          m_lastError := code;
          m_isInit := m_isInit c |},
       e')
  end.

(** Modelled from the spec: the body of Subscribe (lines 123-125) is not in
    the header.  The topic filter, the quality of service and the two
    handlers go to the engine. *)
Definition Subscribe (topicFilter : string) (qos : QOS)
    (onPublish : std_function OnPublishReceivedHandler)
    (onOpComplete : std_function OnOperationCompleteHandler)
    (c : MqttConnection) (e : engine) : Z * MqttConnection * engine :=
  submit (ReqSubscribe topicFilter qos onPublish onOpComplete) c e.

(** Modelled from the spec: the body of Unsubscribe (lines 131-132) is not
    in the header.  The topic filter and the completion handler go to the
    engine. *)
Definition Unsubscribe (topicFilter : string)
    (onOpComplete : std_function OnOperationCompleteHandler)
    (c : MqttConnection) (e : engine) : Z * MqttConnection * engine :=
  submit (ReqUnsubscribe topicFilter onOpComplete) c e.

(** Modelled from the spec: the body of Publish (lines 138-139) is not in
    the header.  The topic, the quality of service, the retain flag, the
    payload and the completion handler go to the engine. *)
Definition Publish (topic : string) (qos : QOS) (retain : bool)
    (payload : ByteBuf)
    (onOpComplete : std_function OnOperationCompleteHandler)
    (c : MqttConnection) (e : engine) : Z * MqttConnection * engine :=
  submit (ReqPublish topic qos retain payload onOpComplete) c e.

(** How the engine takes a request for a keep-alive ping. *)
Variable engine_ping : engine -> engine.

(** Modelled from the spec: the body of Ping (line 144) is not in the
    header.  It asks the engine for a keep-alive ping and returns at once;
    the engine is a C library, which raises no exception. *)
Definition Ping (c : MqttConnection) (e : engine)
  : outcome (MqttConnection * engine) :=
  Returned (c, engine_ping e).

End Submission.

End WithUserState.

Arguments MqttConnection U : clear implicits.
Arguments request U : clear implicits.

End Conn.

(** ** class MqttClient *)

Module Client.
Import Engine Cpp.

(** Modelled from the spec: [aws_mqtt_client] is declared by the engine,
    whose headers are not part of the sources.  The member is held by
    value: zeroed, or an initialized context. *)
Definition aws_mqtt_client := option handle.

(** Lines 203-205. *)
Record MqttClient := {
  m_client : aws_mqtt_client;
  m_lastError : Z;
  m_isInit : bool
}.

(** Modelled from the spec: the body of the constructor (line 184) is not in
    the header.  The engine context is initialized from the bootstrap and
    the allocator; [r] is the engine's answer.  On failure the client is not
    initialized and keeps the error code. *)
Definition MqttClient_ctor (r : engine_result handle) : MqttClient :=
  match r with
  | EngineOk h =>
      {| m_client := Some h; m_lastError := AWS_ERROR_SUCCESS;
         m_isInit := true |}
  | EngineError code =>
      {| m_client := None; m_lastError := code; m_isInit := false |}
  end.

(** Modelled from the spec: the body of [MqttClient::operator bool]
    (line 192) is not in the header. *)
Definition operator_bool (c : MqttClient) : bool := m_isInit c.

(** Modelled from the spec: the body of [MqttClient::LastError] (line 193)
    is not in the header. *)
Definition LastError (c : MqttClient) : Z := m_lastError c.

(** Modelled from the spec: the body of the move constructor (line 188) is
    not in the header.  The destination takes the members of the source,
    and the source is left without a context and not initialized. *)
Definition move_construct (src : MqttClient) : MqttClient * MqttClient :=
  ({| m_client := m_client src; m_lastError := m_lastError src;
      m_isInit := m_isInit src |},
   {| m_client := None; m_lastError := m_lastError src; m_isInit := false |}).

(** Modelled from the spec: the body of the move assignment (line 190) is
    not in the header.  It leaves destination and source as the move
    constructor does. *)
Definition move_assign (dst src : MqttClient) : MqttClient * MqttClient :=
  move_construct src.

(** Modelled from the spec: the body of [NewConnection] (lines 199-200) is
    not in the header.  The client at address [self] builds the connection
    with the private constructor; [r] is the engine's answer to the request
    for a session handle. *)
Definition NewConnection {U : Type} (self : address)
    (r : engine_result handle) : Conn.MqttConnection U :=
  Conn.Connection_ctor self r.

End Client.

(** ** Live objects and the actions of a user program *)

Module World.
Import Engine.

Section WithUserState.
Context {U : Type}.

(** The facade objects alive at each address, and the engine-side objects
    that have been allocated and not released. *)
Record world := {
  clients : gmap address Client.MqttClient;
  connections : gmap address (Conn.MqttConnection U);
  live : gset handle
}.

Definition initial : world :=
  {| clients := ∅; connections := ∅; live := ∅ |}.

(** What a program can do with the two classes.  Where the engine is asked
    for something, the action carries the engine's answer.  There is no
    action for a copy: both copy operations are deleted. *)
Inductive action :=
  | A_ClientCtor (dst : address) (r : engine_result handle)
  | A_ClientMoveCtor (src dst : address)
  | A_ClientMoveAssign (src dst : address)
  | A_ClientDtor (a : address)
  | A_NewConnection (client dst : address) (r : engine_result handle)
  | A_ConnMoveCtor (src dst : address)
  | A_ConnMoveAssign (src dst : address)
  | A_ConnDtor (a : address)
  | A_SetOnConnectionFailedHandler (a : address)
      (h : Cpp.std_function (@Conn.OnConnectionFailedHandler U))
  | A_SetOnConnAckHandler (a : address)
      (h : Cpp.std_function (@Conn.OnConnAckHandler U))
  | A_SetOnDisconnectHandler (a : address)
      (h : Cpp.std_function (@Conn.OnDisconnectHandler U))
  | A_Submit (a : address) (req : Conn.request U) (r : engine_result Z).

(** The engine never hands out a handle that is still live. *)
Definition fresh (r : engine_result handle) (s : gset handle) : bool :=
  match r with
  | EngineOk h => bool_decide (h ∉ s)
  | EngineError _ => true
  end.

Definition allocate (r : engine_result handle) (s : gset handle)
  : gset handle :=
  match r with
  | EngineOk h => {[h]} ∪ s
  | EngineError _ => s
  end.

(** Modelled from the spec: the body of [~MqttClient] (line 186) is not in
    the header.  The destructor releases the engine context of an
    initialized client. *)
Definition Client_dtor_release (c : Client.MqttClient) (s : gset handle)
  : gset handle :=
  if Client.m_isInit c
  then match Client.m_client c with Some h => s ∖ {[h]} | None => s end
  else s.

(** Line 71, [~MqttConnection() = default]: the members are destroyed, which
    for the two pointers does nothing to what they point to; the object is
    gone and nothing else changes. *)
Definition Connection_dtor (a : address) (w : world) : world :=
  {| clients := clients w;
     connections := delete a (connections w);
     live := live w |}.

Definition with_connections (w : world)
    (m : gmap address (Conn.MqttConnection U)) : world :=
  {| clients := clients w; connections := m; live := live w |}.

Definition with_clients (w : world) (m : gmap address Client.MqttClient)
  : world :=
  {| clients := m; connections := connections w; live := live w |}.

(** One action; [None] when the program is not well formed (an object that
    does not exist, an address already taken, a move onto itself) or the
    engine's answer is not fresh. *)
Definition exec (act : action) (w : world) : option world :=
  match act with
  | A_ClientCtor dst r =>
      match clients w !! dst with
      | Some _ => None
      | None =>
          if fresh r (live w)
          then Some {| clients := <[dst := Client.MqttClient_ctor r]> (clients w);
                       connections := connections w;
                       live := allocate r (live w) |}
          else None
      end
  | A_ClientMoveCtor src dst =>
      match clients w !! src, clients w !! dst with
      | Some c, None =>
          let '(d, s) := Client.move_construct c in
          Some (with_clients w (<[dst := d]> (<[src := s]> (clients w))))
      | _, _ => None
      end
  | A_ClientMoveAssign src dst =>
      match clients w !! src, clients w !! dst with
      | Some c, Some old =>
          if bool_decide (src = dst) then None
          else
            let '(d, s) := Client.move_assign old c in
            Some (with_clients w (<[dst := d]> (<[src := s]> (clients w))))
      | _, _ => None
      end
  | A_ClientDtor a =>
      match clients w !! a with
      | Some c =>
          Some {| clients := delete a (clients w);
                  connections := connections w;
                  live := Client_dtor_release c (live w) |}
      | None => None
      end
  | A_NewConnection client dst r =>
      match clients w !! client, connections w !! dst with
      | Some _, None =>
          if fresh r (live w)
          then Some {| clients := clients w;
                       connections :=
                         <[dst := Client.NewConnection client r]> (connections w);
                       live := allocate r (live w) |}
          else None
      | _, _ => None
      end
  | A_ConnMoveCtor src dst =>
      match connections w !! src, connections w !! dst with
      | Some c, None =>
          let '(d, s) := Conn.move_construct c in
          Some (with_connections w (<[dst := d]> (<[src := s]> (connections w))))
      | _, _ => None
      end
  | A_ConnMoveAssign src dst =>
      match connections w !! src, connections w !! dst with
      | Some c, Some old =>
          if bool_decide (src = dst) then None
          else
            let '(d, s) := Conn.move_assign old c in
            Some (with_connections w (<[dst := d]> (<[src := s]> (connections w))))
      | _, _ => None
      end
  | A_ConnDtor a =>
      match connections w !! a with
      | Some _ => Some (Connection_dtor a w)
      | None => None
      end
  | A_SetOnConnectionFailedHandler a h =>
      match connections w !! a with
      | Some c =>
          Some (with_connections w
                  (<[a := Conn.SetOnConnectionFailedHandler h c]> (connections w)))
      | None => None
      end
  | A_SetOnConnAckHandler a h =>
      match connections w !! a with
      | Some c =>
          Some (with_connections w
                  (<[a := Conn.SetOnConnAckHandler h c]> (connections w)))
      | None => None
      end
  | A_SetOnDisconnectHandler a h =>
      match connections w !! a with
      | Some c =>
          Some (with_connections w
                  (<[a := Conn.SetOnDisconnectHandler h c]> (connections w)))
      | None => None
      end
  | A_Submit a req r =>
      match connections w !! a with
      | Some c =>
          let c' := snd (fst (Conn.submit unit (fun _ e => (r, e)) req c tt)) in
          Some (with_connections w (<[a := c']> (connections w)))
      | None => None
      end
  end.

(** A program run, oldest action first. *)
Fixpoint run (acts : list action) (w : world) : option world :=
  match acts with
  | [] => Some w
  | act :: rest =>
      match exec act w with
      | Some w' => run rest w'
      | None => None
      end
  end.

(** The worlds a program can reach, with the actions that led there, the
    most recent first. *)
Inductive reachable : list action -> world -> Prop :=
  | reachable_initial : reachable [] initial
  | reachable_step tr w act w' :
      reachable tr w -> exec act w = Some w' -> reachable (act :: tr) w'.

(** The connection [c] is as some call of NewConnection in the trace made
    it: same owning client, same session handle, same initialization flag. *)
Definition made_by_NewConnection (tr : list action)
    (c : Conn.MqttConnection U) : Prop :=
  ∃ client dst r,
    In (A_NewConnection client dst r) tr
    ∧ Conn.m_owningClient c = Some client
    ∧ Conn.m_underlyingConnection c
      = Conn.m_underlyingConnection (@Client.NewConnection U client r)
    ∧ Conn.m_isInit c = Conn.m_isInit (@Client.NewConnection U client r).

Definition all_made_by_NewConnection (tr : list action) (w : world) : Prop :=
  ∀ a c, connections w !! a = Some c → made_by_NewConnection tr c.

(** Every initialized client holds a live engine context, and no two of them
    hold the same one. *)
Definition clients_exclusive (w : world) : Prop :=
  (∀ a c, clients w !! a = Some c → Client.operator_bool c = true →
     ∃ h, Client.m_client c = Some h ∧ h ∈ live w)
  ∧ (∀ a b ca cb, a ≠ b →
       clients w !! a = Some ca → clients w !! b = Some cb →
       Client.operator_bool ca = true → Client.operator_bool cb = true →
       Client.m_client ca ≠ Client.m_client cb).

End WithUserState.

Arguments world U : clear implicits.
Arguments action U : clear implicits.

End World.

(** ** A small engine, to run the facades on *)

Module SampleEngine.
Import Engine.

(** Whether the session is connected, and how many requests were accepted. *)
Definition engine : Type := bool * Z.

(** Accepted requests get the packet identifiers 1, 2, ..., 65535, 1, ...;
    a request on a session that is not connected is refused. *)
Definition engine_submit {U : Type} (req : Conn.request U) (e : engine)
  : engine_result Z * engine :=
  let '(connected, n) := e in
  if connected
  then (EngineOk (1 + n mod 65535), (connected, n + 1))
  else (EngineError 5, e).

End SampleEngine.

(** ** The operations whose code is in the header *)

Module Header.

(** The actions whose behaviour the header fixes: the three setters (lines
    80-93) and the defaulted move constructor, move assignment and
    destructor of MqttConnection (lines 71-75). *)
Definition defined_in_header {U : Type} (act : World.action U) : bool :=
  match act with
  | World.A_ConnMoveCtor _ _
  | World.A_ConnMoveAssign _ _
  | World.A_ConnDtor _
  | World.A_SetOnConnectionFailedHandler _ _
  | World.A_SetOnConnAckHandler _ _
  | World.A_SetOnDisconnectHandler _ _ => true
  | _ => false
  end.

(** Two connections agree on the members that are not handlers. *)
Definition same_scalars {U : Type} (c c' : Conn.MqttConnection U) : Prop :=
  Conn.m_owningClient c' = Conn.m_owningClient c
  /\ Conn.m_underlyingConnection c' = Conn.m_underlyingConnection c
  /\ Conn.m_lastError c' = Conn.m_lastError c
  /\ Conn.m_isInit c' = Conn.m_isInit c.

End Header.

(** ** Engine events *)

Module Events.
Import Engine.



End Events.

(** ** Who holds a session handle *)

Module Sharing.
Import Engine.

(** Every session handle held by a connection is live; no valid client
    holds it as its engine context; and the connections that hold the same
    session handle have the same owning client and initialization flag. *)
Definition sessions_separate {U : Type} (w : World.world U) : Prop :=
  (forall a c h,
      World.connections w !! a = Some c ->
      Conn.m_underlyingConnection c = Some h -> h ∈ World.live w)
  /\ (forall a k b c,
        World.clients w !! a = Some k -> Client.operator_bool k = true ->
        World.connections w !! b = Some c ->
        Conn.m_underlyingConnection c <> Client.m_client k)
  /\ (forall a b ca cb h,
        World.connections w !! a = Some ca ->
        World.connections w !! b = Some cb ->
        Conn.m_underlyingConnection ca = Some h ->
        Conn.m_underlyingConnection cb = Some h ->
        Conn.m_owningClient ca = Conn.m_owningClient cb
        /\ Conn.m_isInit ca = Conn.m_isInit cb).

(** The actions that touch connections only and make no new one. *)
Definition connection_action {U : Type} (act : World.action U) : bool :=
  match act with
  | World.A_ClientCtor _ _
  | World.A_ClientMoveCtor _ _
  | World.A_ClientMoveAssign _ _
  | World.A_ClientDtor _
  | World.A_NewConnection _ _ _ => false
  | _ => true
  end.

End Sharing.

(** Case analysis on a lookup in an updated map. *)
Ltac lookup_cases H :=
  repeat match type of H with
    | <[?k := _]> _ !! ?j = Some _ =>
        destruct (decide (k = j)) as [-> |];
        [rewrite lookup_insert_eq in H; injection H as <-
        | rewrite lookup_insert_ne in H by assumption]
    | delete ?k _ !! ?j = Some _ =>
        destruct (decide (k = j)) as [-> |];
        [rewrite lookup_delete_eq in H; discriminate
        | rewrite lookup_delete_ne in H by assumption]
    end.

(** * Properties *)

Import Engine.

(** ** Calls and exceptions *)

(** A function under a non-throwing exception specification never lets an
    exception reach its caller, whatever its body does. *)
Lemma noexcept_guard_no_throw {A : Type} (o : Cpp.outcome A) :
  Cpp.propagates (Cpp.noexcept_guard o) = false.
Proof. destruct o; reflexivity. Qed.

Lemma call_noexcept_no_throw {A : Type} (f : Decl.member_function)
    (body : Cpp.outcome A) :
  Cpp.effective_noexcept f = true ->
  Cpp.propagates (Cpp.call f body) = false.
Proof.
  intros Hf. unfold Cpp.call. rewrite Hf. apply noexcept_guard_no_throw.
Qed.

(** Without such a specification the caller sees what the body does. *)
Lemma call_unspecified {A : Type} (f : Decl.member_function)
    (body : Cpp.outcome A) :
  Cpp.effective_noexcept f = false -> Cpp.call f body = body.
Proof. intros Hf. unfold Cpp.call. now rewrite Hf. Qed.

(** Ping is the one public operation that is under no such specification:
    its caller sees what its body does. *)
Lemma only_Ping_unguarded (f : Decl.member_function) :
  Decl.public_operation f = true ->
  Cpp.effective_noexcept f = false <-> f = Decl.Ping.
Proof.
  intros Hpub. split.
  - intros Hf. destruct f; try reflexivity; discriminate.
  - intros ->. reflexivity.
Qed.

Lemma Ping_unguarded {A : Type} (body : Cpp.outcome A) :
  Cpp.call Decl.Ping body = body.
Proof. now apply call_unspecified. Qed.

(** C2: no constructor and no public operation of MqttClient or
    MqttConnection lets an exception reach its caller.  Every one of them
    other than Ping (SetWill, SetLogin, Connect, Disconnect, Subscribe,
    Unsubscribe, Publish, the handler setters, the validity checks,
    LastError, NewConnection, the moves and the destructors) is under a
    non-throwing exception specification, so this holds whatever its body
    does.  Ping is declared without one (line 144), and returns because its
    body hands the request to the engine and does nothing else. *)
Theorem no_exception_propagates :
  (forall (f : Decl.member_function) (A : Type) (body : Cpp.outcome A),
      Decl.definition_of f <> Decl.Deleted ->
      Decl.public_operation f = true \/ Decl.is_constructor f = true ->
      f <> Decl.Ping ->
      Cpp.propagates (Cpp.call f body) = false)
  /\ (forall (U engine : Type) (engine_ping : engine -> engine)
             (c : Conn.MqttConnection U) (e : engine),
        Cpp.propagates (Cpp.call Decl.Ping (Conn.Ping engine engine_ping c e))
        = false).
Proof.
  split.
  - intros f A body Hdel Hcov HPing. apply call_noexcept_no_throw.
    destruct f; try reflexivity;
      solve [ congruence
            | exfalso; apply Hdel; reflexivity
            | destruct Hcov as [H | H]; discriminate H ].
  - reflexivity.
Qed.

Lemma no_exception_propagates_witness :
  Decl.definition_of Decl.Subscribe <> Decl.Deleted
  /\ Decl.public_operation Decl.Subscribe = true
  /\ Decl.Subscribe <> Decl.Ping
  /\ Cpp.propagates (Cpp.call Decl.Subscribe (@Cpp.Thrown Z)) = false.
Proof.
  split; [discriminate |].
  split; [reflexivity |].
  split; [discriminate |].
  apply (proj1 no_exception_propagates Decl.Subscribe Z Cpp.Thrown).
  - discriminate.
  - left; reflexivity.
  - discriminate.
Defined.

(** ** Handler slots *)

Section Slots.
Context {U : Type}.
Implicit Types c : Conn.MqttConnection U.

Lemma SetOnConnectionFailedHandler_twice c h1 h2 :
  Conn.SetOnConnectionFailedHandler h2 (Conn.SetOnConnectionFailedHandler h1 c)
  = Conn.SetOnConnectionFailedHandler h2 c.
Proof. reflexivity. Qed.

Lemma SetOnConnAckHandler_twice c h1 h2 :
  Conn.SetOnConnAckHandler h2 (Conn.SetOnConnAckHandler h1 c)
  = Conn.SetOnConnAckHandler h2 c.
Proof. reflexivity. Qed.

Lemma SetOnDisconnectHandler_twice c h1 h2 :
  Conn.SetOnDisconnectHandler h2 (Conn.SetOnDisconnectHandler h1 c)
  = Conn.SetOnDisconnectHandler h2 c.
Proof. reflexivity. Qed.

End Slots.

(** C5: for each of the three stored slots, setting the handler to [h1] and
    then to [h2] leaves the connection as setting it to [h2] alone does; the
    slot then holds [h2], and a slot holds one handler or none.  The same
    holds for the two programs run on any world. *)
Theorem set_handler_overwrites {U : Type} (c : Conn.MqttConnection U) :
  (forall h1 h2,
      Conn.SetOnConnectionFailedHandler h2
        (Conn.SetOnConnectionFailedHandler h1 c)
      = Conn.SetOnConnectionFailedHandler h2 c
      /\ Conn.m_onConnectionFailed
           (Conn.SetOnConnectionFailedHandler h2
              (Conn.SetOnConnectionFailedHandler h1 c)) = h2)
  /\ (forall h1 h2,
      Conn.SetOnConnAckHandler h2 (Conn.SetOnConnAckHandler h1 c)
      = Conn.SetOnConnAckHandler h2 c
      /\ Conn.m_onConnAck
           (Conn.SetOnConnAckHandler h2 (Conn.SetOnConnAckHandler h1 c)) = h2)
  /\ (forall h1 h2,
      Conn.SetOnDisconnectHandler h2 (Conn.SetOnDisconnectHandler h1 c)
      = Conn.SetOnDisconnectHandler h2 c
      /\ Conn.m_onDisconnect
           (Conn.SetOnDisconnectHandler h2 (Conn.SetOnDisconnectHandler h1 c))
         = h2)
  /\ (forall (w : World.world U) a h1 h2,
      World.run [World.A_SetOnConnectionFailedHandler a h1;
                 World.A_SetOnConnectionFailedHandler a h2] w
      = World.run [World.A_SetOnConnectionFailedHandler a h2] w)
  /\ (forall (w : World.world U) a h1 h2,
      World.run [World.A_SetOnConnAckHandler a h1;
                 World.A_SetOnConnAckHandler a h2] w
      = World.run [World.A_SetOnConnAckHandler a h2] w)
  /\ (forall (w : World.world U) a h1 h2,
      World.run [World.A_SetOnDisconnectHandler a h1;
                 World.A_SetOnDisconnectHandler a h2] w
      = World.run [World.A_SetOnDisconnectHandler a h2] w).
Proof.
  split; [intros; split;
          [apply SetOnConnectionFailedHandler_twice | reflexivity] |].
  split; [intros; split; [apply SetOnConnAckHandler_twice | reflexivity] |].
  split; [intros; split; [apply SetOnDisconnectHandler_twice | reflexivity] |].
  repeat split; intros w a h1 h2; simpl;
    destruct (World.connections w !! a) as [c0 |] eqn:Hc; simpl;
    try reflexivity;
    rewrite lookup_insert_eq; f_equal;
    unfold World.with_connections; simpl;
    now rewrite insert_insert_eq.
Qed.

(** ** The data members of a connection *)

(** C6, as the claim states it, fails on the count of slots: MqttConnection
    stores three handlers, not four, and none of them is for a received
    publish or for a completed operation. *)
Lemma connection_slots_not_four :
  length (Decl.callback_slots Decl.class_MqttConnection) <> 4%nat
  /\ ~ In Decl.EvPublishReceived (Decl.callback_slots Decl.class_MqttConnection)
  /\ ~ In Decl.EvOperationComplete
         (Decl.callback_slots Decl.class_MqttConnection).
Proof.
  split; [discriminate |].
  split; simpl; intros H; repeat destruct H as [H | H]; discriminate || exact H.
Qed.

(** C6, amended: a connection holds exactly one native session handle, one
    error code, one initialization flag, one pointer to the owning client,
    and three optional callback slots, for connection-failed, connack and
    disconnect.  The handlers for a received publish and for a completed
    operation have no slot: they are arguments of Subscribe, Unsubscribe and
    Publish. *)
Theorem connection_members :
  Decl.count_members Decl.class_MqttConnection
    Decl.T_aws_mqtt_client_connection_ptr = 1%nat
  /\ Decl.count_members Decl.class_MqttConnection Decl.T_int = 1%nat
  /\ Decl.count_members Decl.class_MqttConnection Decl.T_bool = 1%nat
  /\ Decl.count_members Decl.class_MqttConnection Decl.T_MqttClient_ptr = 1%nat
  /\ length (Decl.data_members Decl.class_MqttConnection) = 7%nat
  /\ Decl.callback_slots Decl.class_MqttConnection
     = [Decl.EvConnectionFailed; Decl.EvConnAck; Decl.EvDisconnect]
  /\ Decl.handler_params Decl.Subscribe
     = [Decl.EvPublishReceived; Decl.EvOperationComplete]
  /\ Decl.handler_params Decl.Unsubscribe = [Decl.EvOperationComplete]
  /\ Decl.handler_params Decl.Publish = [Decl.EvOperationComplete]
  /\ (forall f, In Decl.EvPublishReceived (Decl.handler_params f)
                \/ In Decl.EvOperationComplete (Decl.handler_params f) ->
                f = Decl.Subscribe \/ f = Decl.Unsubscribe \/ f = Decl.Publish).
Proof.
  do 9 (split; [reflexivity |]).
  intros f [H | H]; destruct f; simpl in H; auto;
    repeat (destruct H as [H | H]; [discriminate H |]); destruct H.
Qed.

(** ** Construction of a client *)

(** C7: when the engine fails to initialize the context, with a nonzero
    error code as engine errors are, the new client's validity check
    returns false and LastError returns that nonzero code; when the engine
    succeeds the validity check returns true; and the constructor, declared
    [noexcept], lets no exception reach its caller. *)
Theorem client_construction (r : engine_result handle) :
  (forall code, r = EngineError code -> code <> 0 ->
     Client.operator_bool (Client.MqttClient_ctor r) = false
     /\ Client.LastError (Client.MqttClient_ctor r) <> 0)
  /\ (forall h, r = EngineOk h ->
        Client.operator_bool (Client.MqttClient_ctor r) = true)
  /\ (forall (A : Type) (body : Cpp.outcome A),
        Cpp.propagates (Cpp.call Decl.Client_ctor body) = false).
Proof.
  split; [| split].
  - intros code -> Hcode. split; [reflexivity | exact Hcode].
  - intros h ->. reflexivity.
  - intros A body. now apply call_noexcept_no_throw.
Qed.

Lemma client_construction_witness :
  Client.operator_bool (Client.MqttClient_ctor (EngineError 3)) = false
  /\ Client.LastError (Client.MqttClient_ctor (EngineError 3)) <> 0
  /\ Client.operator_bool (Client.MqttClient_ctor (EngineOk 1%nat)) = true.
Proof.
  split; [| split].
  - apply (proj1 (client_construction (EngineError 3)) 3);
      [reflexivity | discriminate].
  - apply (proj1 (client_construction (EngineError 3)) 3);
      [reflexivity | discriminate].
  - apply (proj1 (proj2 (client_construction (EngineOk 1%nat))) 1%nat).
    reflexivity.
Defined.

(** ** Packet identifiers *)

Section PacketIdentifiers.
Context {U : Type}.
Variable engine : Type.
Variable engine_submit :
  Conn.request U -> engine -> engine_result Z * engine.

Lemma to_uint16_range (z : Z) : 0 <= Cpp.to_uint16 z < 65536.
Proof. unfold Cpp.to_uint16. apply Z.mod_pos_bound. lia. Qed.

Lemma to_uint16_packet_id (z : Z) : 1 <= z <= 65535 -> Cpp.to_uint16 z = z.
Proof. intros H. unfold Cpp.to_uint16. apply Z.mod_small. lia. Qed.

(** What [submit] returns, by the engine's answer. *)
Lemma submit_packet_id (req : Conn.request U) (c : Conn.MqttConnection U)
    (e : engine) :
  let packetId := fst (fst (Conn.submit engine engine_submit req c e)) in
  0 <= packetId < 65536
  /\ (forall id, fst (engine_submit req e) = EngineOk id ->
        1 <= id <= 65535 -> packetId = id /\ packetId <> 0)
  /\ (forall code, fst (engine_submit req e) = EngineError code ->
        packetId = 0).
Proof.
  unfold Conn.submit.
  destruct (engine_submit req e) as [[id | code] e']; simpl.
  - split; [apply to_uint16_range |].
    split; [| discriminate].
    intros id' [= <-] Hid. rewrite to_uint16_packet_id by exact Hid. lia.
  - split; [lia |]. split; [discriminate | reflexivity].
Qed.

End PacketIdentifiers.

(** C1: Subscribe, Unsubscribe and Publish are declared to return a
    [uint16_t], and each call returns a packet identifier in the 16-bit
    range at once: the identifier the engine assigned, which is nonzero,
    when the engine accepts the request, and zero when the engine refuses
    it.  The engine's identifiers are MQTT packet identifiers, between 1 and
    65535. *)
Theorem packet_id_nonzero_iff_accepted {U : Type} (engine : Type)
    (engine_submit : Conn.request U -> engine -> engine_result Z * engine)
    (c : Conn.MqttConnection U) (e : engine)
    (topic : string) (qos : QOS) (retain : bool) (payload : ByteBuf)
    (onPublish : Cpp.std_function (@Conn.OnPublishReceivedHandler U))
    (onOpComplete : Cpp.std_function (@Conn.OnOperationCompleteHandler U)) :
  (forall req e0 id, fst (engine_submit req e0) = EngineOk id ->
     1 <= id <= 65535) ->
  let accepted req := exists id, fst (engine_submit req e) = EngineOk id in
  let refused req := exists code, fst (engine_submit req e) = EngineError code in
  let sub :=
    fst (fst (Conn.Subscribe engine engine_submit topic qos onPublish
                onOpComplete c e)) in
  let unsub :=
    fst (fst (Conn.Unsubscribe engine engine_submit topic onOpComplete c e)) in
  let pub :=
    fst (fst (Conn.Publish engine engine_submit topic qos retain payload
                onOpComplete c e)) in
  (Decl.return_type_of Decl.Subscribe = Decl.R_uint16_t
   /\ Decl.return_type_of Decl.Unsubscribe = Decl.R_uint16_t
   /\ Decl.return_type_of Decl.Publish = Decl.R_uint16_t)
  /\ (0 <= sub < 65536
      /\ (accepted (Conn.ReqSubscribe topic qos onPublish onOpComplete) ->
          sub <> 0)
      /\ (refused (Conn.ReqSubscribe topic qos onPublish onOpComplete) ->
          sub = 0))
  /\ (0 <= unsub < 65536
      /\ (accepted (Conn.ReqUnsubscribe topic onOpComplete) -> unsub <> 0)
      /\ (refused (Conn.ReqUnsubscribe topic onOpComplete) -> unsub = 0))
  /\ (0 <= pub < 65536
      /\ (accepted (Conn.ReqPublish topic qos retain payload onOpComplete) ->
          pub <> 0)
      /\ (refused (Conn.ReqPublish topic qos retain payload onOpComplete) ->
          pub = 0)).
Proof.
  intros Hids accepted refused sub unsub pub.
  split; [repeat split |].
  assert (Hsubmit : forall req,
    let p := fst (fst (Conn.submit engine engine_submit req c e)) in
    0 <= p < 65536 /\ (accepted req -> p <> 0) /\ (refused req -> p = 0)).
  { intros req p.
    destruct (submit_packet_id engine engine_submit req c e)
      as (Hrange & Hok & Herr).
    split; [exact Hrange |]. split.
    - intros [id Hid]. apply (Hok id Hid). apply (Hids req e id Hid).
    - intros [code Hcode]. apply (Herr code Hcode). }
  split; [| split]; apply Hsubmit.
Qed.

Lemma packet_id_nonzero_iff_accepted_witness :
  fst (fst (Conn.Publish (U:=unit) SampleEngine.engine
              SampleEngine.engine_submit "a/b"%string 1 false [] None
              (Conn.Connection_ctor 0%nat (EngineOk 7%nat)) (true, 0))) <> 0
  /\ fst (fst (Conn.Publish (U:=unit) SampleEngine.engine
                 SampleEngine.engine_submit "a/b"%string 1 false [] None
                 (Conn.Connection_ctor 0%nat (EngineOk 7%nat)) (false, 0))) = 0.
Proof.
  assert (Hids : forall (req : Conn.request unit) e0 id,
             fst (SampleEngine.engine_submit req e0) = EngineOk id ->
             1 <= id <= 65535).
  { intros req [[|] n] id; simpl; [| discriminate].
    intros [= <-]. pose proof (Z.mod_pos_bound n 65535). lia. }
  split.
  - apply (packet_id_nonzero_iff_accepted (U:=unit) SampleEngine.engine
             SampleEngine.engine_submit
             (Conn.Connection_ctor 0%nat (EngineOk 7%nat)) (true, 0)
             "a/b"%string 1 false [] None None Hids).
    exists 1. reflexivity.
  - apply (packet_id_nonzero_iff_accepted (U:=unit) SampleEngine.engine
             SampleEngine.engine_submit
             (Conn.Connection_ctor 0%nat (EngineOk 7%nat)) (false, 0)
             "a/b"%string 1 false [] None None Hids).
    exists 5. reflexivity.
Defined.

(** ** Worlds *)

Section Worlds.
Context {U : Type}.
Implicit Types (w : World.world U) (c : Conn.MqttConnection U).
Implicit Types (tr : list (World.action U)).

Lemma run_reachable_from acts : forall tr w0 w,
  World.reachable tr w0 -> World.run acts w0 = Some w ->
  World.reachable (rev acts ++ tr) w.
Proof.
  induction acts as [| act rest IH]; intros tr w0 w Hreach Hrun; simpl in *.
  - now injection Hrun as <-.
  - destruct (World.exec act w0) as [w1 |] eqn:Hexec; [| discriminate].
    rewrite <- app_assoc. simpl.
    apply (IH (act :: tr) w1 w); [| exact Hrun].
    now apply World.reachable_step with (w := w0).
Qed.

Lemma run_reachable acts w :
  World.run acts World.initial = Some w -> World.reachable (rev acts) w.
Proof.
  intros Hrun. rewrite <- (app_nil_r (rev acts)).
  apply (run_reachable_from acts [] World.initial w);
    [apply World.reachable_initial | exact Hrun].
Qed.

(** *** Where connections come from *)

Lemma made_by_NewConnection_same tr c c' :
  Conn.m_owningClient c' = Conn.m_owningClient c ->
  Conn.m_underlyingConnection c' = Conn.m_underlyingConnection c ->
  Conn.m_isInit c' = Conn.m_isInit c ->
  World.made_by_NewConnection tr c -> World.made_by_NewConnection tr c'.
Proof.
  intros Ho Hu Hi (client & dst & r & Hin & H1 & H2 & H3).
  exists client, dst, r. rewrite Ho, Hu, Hi. auto.
Qed.

Lemma made_by_NewConnection_later tr act c :
  World.made_by_NewConnection tr c ->
  World.made_by_NewConnection (act :: tr) c.
Proof.
  intros (client & dst & r & Hin & H). exists client, dst, r.
  split; [now right | exact H].
Qed.

Lemma exec_made_by_NewConnection tr w act w' :
  World.all_made_by_NewConnection tr w -> World.exec act w = Some w' ->
  World.all_made_by_NewConnection (act :: tr) w'.
Proof.
  intros Hinv Hexec a c Hc.
  assert (Hold : forall b cb, World.connections w !! b = Some cb ->
                 World.made_by_NewConnection (act :: tr) cb).
  { intros b cb Hb. apply made_by_NewConnection_later. now apply (Hinv b). }
  destruct act; simpl in Hexec;
    repeat match type of Hexec with
    | match ?x with _ => _ end = Some _ => destruct x eqn:?; try discriminate
    | (if ?x then _ else _) = Some _ => destruct x eqn:?; try discriminate
    end;
    injection Hexec as <-; simpl in Hc.
  all: try (now apply (Hold a)).
  all: repeat match type of Hc with
    | <[?k := _]> _ !! ?j = Some _ =>
        destruct (decide (k = j)) as [-> |];
        [rewrite lookup_insert_eq in Hc; injection Hc as <-
        | rewrite lookup_insert_ne in Hc by assumption]
    | delete ?k _ !! ?j = Some _ =>
        destruct (decide (k = j)) as [-> |];
        [rewrite lookup_delete_eq in Hc; discriminate
        | rewrite lookup_delete_ne in Hc by assumption]
    end.
  all: try (now apply (Hold a)).
  all: try match goal with
    | H : World.connections _ !! _ = Some ?m |- _ =>
        apply (made_by_NewConnection_same _ m);
        [try (unfold Conn.submit; destruct r); reflexivity ..
        | eapply Hold; exact H]
    end.
  exists client, a, r. split; [now left |].
  split; [destruct r; reflexivity |]. split; reflexivity.
Qed.

Lemma reachable_made_by_NewConnection tr w :
  World.reachable tr w -> World.all_made_by_NewConnection tr w.
Proof.
  induction 1 as [| tr w act w' _ IH Hexec].
  - intros a c Hc. simpl in Hc. now rewrite lookup_empty in Hc.
  - now apply (exec_made_by_NewConnection tr w).
Qed.

(** *** Who holds an engine context *)

Lemma fresh_allocate (r : engine_result handle) (s : gset handle) h :
  h ∈ s -> h ∈ World.allocate r s.
Proof. destruct r; simpl; set_solver. Qed.

Lemma construct_clients_exclusive w dst (r : engine_result handle) :
  World.clients_exclusive w ->
  World.fresh r (World.live w) = true ->
  World.clients_exclusive
    {| World.clients := <[dst := Client.MqttClient_ctor r]> (World.clients w);
       World.connections := World.connections w;
       World.live := World.allocate r (World.live w) |}.
Proof.
  intros [Hlive Hexcl] Hfresh.
  assert (Hnew : forall h, Client.m_client (Client.MqttClient_ctor r) = Some h ->
                           (h ∉ World.live w) /\ (h ∈ World.allocate r (World.live w))).
  { destruct r as [h0 | code]; simpl in *; [| discriminate].
    intros h [= <-]. apply bool_decide_eq_true in Hfresh. set_solver. }
  assert (Hvalid : Client.operator_bool (Client.MqttClient_ctor r) = true ->
                   exists h, Client.m_client (Client.MqttClient_ctor r) = Some h).
  { destruct r; simpl; [eauto | discriminate]. }
  split; simpl.
  - intros a c Hc Hv. lookup_cases Hc.
    + destruct (Hvalid Hv) as [h Hh]. exists h. split; [exact Hh |].
      now apply Hnew.
    + destruct (Hlive a c Hc Hv) as (h & Hh & Hin). exists h.
      split; [exact Hh | now apply fresh_allocate].
  - intros a b ca cb Hab Ha Hb Hva Hvb Heq. lookup_cases Ha; lookup_cases Hb.
    + now apply Hab.
    + destruct (Hvalid Hva) as [h Hh].
      destruct (Hlive b cb Hb Hvb) as (h' & Hh' & Hin).
      rewrite Hh, Hh' in Heq. injection Heq as ->.
      now apply (proj1 (Hnew h' Hh)).
    + destruct (Hvalid Hvb) as [h Hh].
      destruct (Hlive a ca Ha Hva) as (h' & Hh' & Hin).
      rewrite Hh, Hh' in Heq. injection Heq as ->.
      now apply (proj1 (Hnew h Hh)).
    + now apply (Hexcl a b ca cb).
Qed.

Lemma move_clients_exclusive w src dst m :
  World.clients_exclusive w ->
  World.clients w !! src = Some m -> src <> dst ->
  World.clients_exclusive
    (World.with_clients w
       (<[dst := fst (Client.move_construct m)]>
          (<[src := snd (Client.move_construct m)]> (World.clients w)))).
Proof.
  intros [Hlive Hexcl] Hm Hne. split; simpl.
  - intros a c Hc Hv. lookup_cases Hc; try discriminate.
    + apply (Hlive src m Hm Hv).
    + now apply (Hlive a c).
  - intros a b ca cb Hab Ha Hb Hva Hvb.
    lookup_cases Ha; lookup_cases Hb; try discriminate; simpl.
    + now destruct Hab.
    + now apply (Hexcl src b m cb).
    + now apply (Hexcl a src ca m).
    + now apply (Hexcl a b ca cb).
Qed.

Lemma destroy_clients_exclusive w a m :
  World.clients_exclusive w ->
  World.clients w !! a = Some m ->
  World.clients_exclusive
    {| World.clients := delete a (World.clients w);
       World.connections := World.connections w;
       World.live := World.Client_dtor_release m (World.live w) |}.
Proof.
  intros [Hlive Hexcl] Hm. split; simpl.
  - intros b c Hc Hv. lookup_cases Hc.
    destruct (Hlive b c Hc Hv) as (h & Hh & Hin). exists h.
    split; [exact Hh |]. unfold World.Client_dtor_release.
    destruct (Client.m_isInit m) eqn:Hinit; [| exact Hin].
    destruct (Client.m_client m) as [h0 |] eqn:Hh0; [| exact Hin].
    assert (h <> h0); [| set_solver].
    intros ->. apply (Hexcl a b m c); auto. congruence.
  - intros b b' cb cb' Hbb Hb Hb' Hv Hv'. lookup_cases Hb; lookup_cases Hb'.
    now apply (Hexcl b b' cb cb').
Qed.

Lemma exec_clients_exclusive w act w' :
  World.clients_exclusive w -> World.exec act w = Some w' ->
  World.clients_exclusive w'.
Proof.
  intros Hinv Hexec.
  destruct act; simpl in Hexec;
    repeat match type of Hexec with
    | match ?x with _ => _ end = Some _ => destruct x eqn:?; try discriminate
    | (if ?x then _ else _) = Some _ => destruct x eqn:?; try discriminate
    end;
    injection Hexec as <-.
  all: try exact Hinv.
  - now apply construct_clients_exclusive.
  - apply (move_clients_exclusive w src dst); [assumption .. |].
    intros ->. congruence.
  - apply (move_clients_exclusive w src dst); [assumption .. |].
    match goal with
    | H : bool_decide _ = false |- _ => now apply bool_decide_eq_false in H
    end.
  - now apply destroy_clients_exclusive.
  - destruct Hinv as [Hlive Hexcl]. split; simpl; [| exact Hexcl].
    intros a c Hc Hv. destruct (Hlive a c Hc Hv) as (h & Hh & Hin).
    exists h. split; [exact Hh | now apply fresh_allocate].
Qed.

Lemma reachable_clients_exclusive tr w :
  World.reachable tr w -> World.clients_exclusive w.
Proof.
  induction 1 as [| tr w act w' _ IH Hexec].
  - split; simpl; intros *; rewrite lookup_empty; discriminate.
  - now apply (exec_clients_exclusive w act).
Qed.

Lemma exec_ConnDtor_frame w a w' :
  World.exec (World.A_ConnDtor a) w = Some w' ->
  w' = World.Connection_dtor a w /\ is_Some (World.connections w !! a).
Proof.
  simpl. destruct (World.connections w !! a) as [c |] eqn:Hc; [| discriminate].
  intros [= <-]. split; [reflexivity | eauto].
Qed.

(** *** Who holds a session handle *)


(** An action on connections only leaves clients and live objects alone,
    and every connection it leaves has the owning client, session handle
    and flag of a connection that was there. *)
Lemma exec_connection_action w act w' :
  Sharing.connection_action act = true -> World.exec act w = Some w' ->
  World.clients w' = World.clients w /\ World.live w' = World.live w
  /\ forall a c', World.connections w' !! a = Some c' ->
       exists b c, World.connections w !! b = Some c
                   /\ Conn.m_owningClient c' = Conn.m_owningClient c
                   /\ Conn.m_underlyingConnection c'
                      = Conn.m_underlyingConnection c
                   /\ Conn.m_isInit c' = Conn.m_isInit c.
Proof.
  intros Hact Hexec.
  destruct act; try discriminate Hact; simpl in Hexec;
    repeat match type of Hexec with
    | match ?x with _ => _ end = Some _ => destruct x eqn:?; try discriminate
    | (if ?x then _ else _) = Some _ => destruct x eqn:?; try discriminate
    end;
    injection Hexec as <-; simpl.
  all: split; [reflexivity |]; split; [reflexivity |].
  all: intros a0 c' Hc'; lookup_cases Hc'.
  all: match goal with
       | H : World.connections _ !! ?b = Some ?m |- _ =>
           exists b, m; split; [exact H |];
           solve [ repeat split
                 | unfold Conn.submit;
                   match goal with r : engine_result Z |- _ => destruct r end;
                   repeat split ]
       end.
Qed.

Lemma frame_sessions_separate w w' :
  World.clients w' = World.clients w -> World.live w' = World.live w ->
  (forall a c', World.connections w' !! a = Some c' ->
     exists b c, World.connections w !! b = Some c
                 /\ Conn.m_owningClient c' = Conn.m_owningClient c
                 /\ Conn.m_underlyingConnection c'
                    = Conn.m_underlyingConnection c
                 /\ Conn.m_isInit c' = Conn.m_isInit c) ->
  Sharing.sessions_separate w -> Sharing.sessions_separate w'.
Proof.
  intros Hcl Hlv Hid (S1 & S2 & S3). split; [| split].
  - intros a c' h Hc' Hh.
    destruct (Hid a c' Hc') as (b & c & Hc & _ & Hu & _).
    rewrite Hlv. apply (S1 b c h Hc). congruence.
  - intros a k b c' Hk Hv Hc'.
    destruct (Hid b c' Hc') as (b0 & c & Hc & _ & Hu & _).
    rewrite Hcl in Hk. rewrite Hu. now apply (S2 a k b0 c).
  - intros a b ca cb h Ha Hb Hha Hhb.
    destruct (Hid a ca Ha) as (a0 & ca0 & Ha0 & Hoa & Hua & Hia).
    destruct (Hid b cb Hb) as (b0 & cb0 & Hb0 & Hob & Hub & Hib).
    rewrite Hoa, Hob, Hia, Hib.
    apply (S3 a0 b0 ca0 cb0 h Ha0 Hb0); congruence.
Qed.

Lemma exec_sessions_separate w act w' :
  World.clients_exclusive w -> Sharing.sessions_separate w ->
  World.exec act w = Some w' ->
  Sharing.sessions_separate w'.
Proof.
  intros [Hlive Hexcl] Hsep Hexec.
  destruct (Sharing.connection_action act) eqn:Hact.
  { destruct (exec_connection_action w act w' Hact Hexec) as (Hcl & Hlv & Hid).
    now apply (frame_sessions_separate w w'). }
  destruct Hsep as (S1 & S2 & S3).
  destruct act; try discriminate Hact; simpl in Hexec;
    repeat match type of Hexec with
    | match ?x with _ => _ end = Some _ => destruct x eqn:?; try discriminate
    | (if ?x then _ else _) = Some _ => destruct x eqn:?; try discriminate
    end;
    injection Hexec as <-; (split; [| split]); simpl.
  - (* constructor of a client: live objects *)
    intros a c h Hc Hh. apply fresh_allocate. now apply (S1 a c).
  - intros a k b c Hk Hv Hc. lookup_cases Hk; [| now apply (S2 a k b c)].
    destruct r as [h0 | code]; [| discriminate Hv]. simpl.
    intros Heq. match goal with
      | H : World.fresh _ _ = true |- _ =>
          simpl in H; apply bool_decide_eq_true in H; apply H
      end.
    now apply (S1 b c).
  - exact S3.
  - (* move constructor of a client *)
    exact S1.
  - intros a k b c Hk Hv Hc. lookup_cases Hk; try discriminate Hv.
    + simpl. match goal with
        | H : World.clients _ !! ?s = Some ?m |- _ _ <> Client.m_client ?m =>
            apply (S2 s m b c H Hv Hc)
        end.
    + now apply (S2 a k b c).
  - exact S3.
  - (* move assignment of a client *)
    exact S1.
  - intros a k b c Hk Hv Hc. lookup_cases Hk; try discriminate Hv.
    + simpl. match goal with
        | H : World.clients _ !! ?s = Some ?m |- _ _ <> Client.m_client ?m =>
            apply (S2 s m b c H Hv Hc)
        end.
    + now apply (S2 a k b c).
  - exact S3.
  - (* destructor of a client *)
    intros b c h Hc Hh. unfold World.Client_dtor_release.
    match goal with H : World.clients _ !! _ = Some ?m |- _ =>
      destruct (Client.m_isInit m) eqn:Hinit; [| now apply (S1 b c)];
      destruct (Client.m_client m) as [h0 |] eqn:Hh0; [| now apply (S1 b c)];
      assert (h <> h0);
      [ intros ->; apply (S2 _ m b c H Hinit Hc); congruence
      | apply elem_of_difference; split;
        [now apply (S1 b c) | now rewrite elem_of_singleton] ]
    end.
  - intros b k b' c Hk Hv Hc. lookup_cases Hk. now apply (S2 b k b' c).
  - exact S3.
  - (* NewConnection *)
    intros a c h Hc Hh. lookup_cases Hc.
    + destruct r as [h0 | code]; simpl in Hh; [| discriminate Hh].
      injection Hh as <-. simpl.
      apply elem_of_union; left. now apply elem_of_singleton.
    + apply fresh_allocate. now apply (S1 a c).
  - intros a k b c Hk Hv Hc. lookup_cases Hc; [| now apply (S2 a k b c)].
    destruct (Hlive a k Hk Hv) as (h0 & Hh0 & Hin0).
    destruct r as [h | code]; simpl; [| congruence].
    rewrite Hh0. intros [= ->].
    match goal with
    | H : World.fresh _ _ = true |- _ =>
        simpl in H; apply bool_decide_eq_true in H; now apply H
    end.
  - intros a b ca cb h Ha Hb Hha Hhb.
    assert (Hnew : forall x cx, World.connections w !! x = Some cx ->
              Conn.m_underlyingConnection cx = Some h ->
              Conn.m_underlyingConnection (@Client.NewConnection U client r)
              = Some h -> False).
    { intros x cx Hx Hhx Hr. destruct r as [h0 | code]; [| discriminate Hr].
      simpl in Hr. injection Hr as ->.
      match goal with
      | H : World.fresh _ _ = true |- _ =>
          simpl in H; apply bool_decide_eq_true in H; apply H
      end.
      now apply (S1 x cx). }
    lookup_cases Ha; lookup_cases Hb.
    + split; reflexivity.
    + destruct (Hnew b cb Hb Hhb Hha).
    + destruct (Hnew a ca Ha Hha Hhb).
    + now apply (S3 a b ca cb h).
Qed.

Lemma reachable_sessions_separate tr w :
  World.reachable tr w -> Sharing.sessions_separate w.
Proof.
  induction 1 as [| tr w act w' Hreach IH Hexec].
  - split; [| split]; simpl; intros *; rewrite lookup_empty; discriminate.
  - apply (exec_sessions_separate w act w');
      [now apply (reachable_clients_exclusive tr) | exact IH | exact Hexec].
Qed.

End Worlds.

(** ** Moves *)




(** C4, as the claim states it, fails for the session handle: after a
    connection is moved, the moved-from object and the destination are both
    alive, both pass the validity check, and both hold the same session
    handle. *)
Lemma moved_connection_shares_handle :
  exists w ca cb,
    World.run (U := unit)
      [World.A_ClientCtor 0%nat (EngineOk 1%nat);
       World.A_NewConnection 0%nat 1%nat (EngineOk 7%nat);
       World.A_ConnMoveCtor 1%nat 2%nat] World.initial = Some w
    /\ World.connections w !! 1%nat = Some ca
    /\ World.connections w !! 2%nat = Some cb
    /\ Conn.operator_bool ca = true
    /\ Conn.operator_bool cb = true
    /\ Conn.m_underlyingConnection ca = Some 7%nat
    /\ Conn.m_underlyingConnection cb = Some 7%nat.
Proof.
  eexists _, _, _. split; [reflexivity |].
  split; [vm_compute; reflexivity |].
  split; [vm_compute; reflexivity |].
  repeat split.
Qed.

(** C4, amended: MqttConnection and MqttClient are move-only types: for
    both, the copy constructor and the copy assignment are deleted while the
    move constructor and the move assignment are public and not deleted.  At
    every moment an engine context is held by at most one valid MqttClient,
    and that context is live.  A session handle is never duplicated by a
    copy, and at every moment the connections that hold the same session
    handle have the same owning client and initialization flag; but the
    session handle has no single exclusive owner: the defaulted move of an
    MqttConnection leaves the source holding the same session handle as the
    destination, and as valid as it was. *)
Theorem move_only_types {U : Type} (tr : list (World.action U))
    (w : World.world U) (c old : Conn.MqttConnection U) :
  World.reachable tr w ->
  (forall f, (Decl.special_of f = Some Decl.CopyCtor
              \/ Decl.special_of f = Some Decl.CopyAssign) ->
             Decl.definition_of f = Decl.Deleted)
  /\ (forall f, (Decl.special_of f = Some Decl.MoveCtor
                 \/ Decl.special_of f = Some Decl.MoveAssign) ->
                Decl.public_operation f = true)
  /\ World.clients_exclusive w
  /\ Conn.m_underlyingConnection (fst (Conn.move_construct c))
     = Conn.m_underlyingConnection c
  /\ Conn.m_underlyingConnection (snd (Conn.move_construct c))
     = Conn.m_underlyingConnection c
  /\ Conn.m_underlyingConnection (fst (Conn.move_assign old c))
     = Conn.m_underlyingConnection c
  /\ Conn.m_underlyingConnection (snd (Conn.move_assign old c))
     = Conn.m_underlyingConnection c
  /\ (Conn.operator_bool (fst (Conn.move_construct c)) = Conn.operator_bool c
      /\ Conn.operator_bool (snd (Conn.move_construct c))
         = Conn.operator_bool c
      /\ Conn.operator_bool (fst (Conn.move_assign old c))
         = Conn.operator_bool c
      /\ Conn.operator_bool (snd (Conn.move_assign old c))
         = Conn.operator_bool c)
  /\ (forall valid,
        Conn.scalar_check valid (snd (Conn.move_construct c))
        = Conn.scalar_check valid c
        /\ Conn.scalar_check valid (snd (Conn.move_assign old c))
           = Conn.scalar_check valid c)
  /\ Sharing.sessions_separate w
  /\ (forall a b ca cb h,
        World.connections w !! a = Some ca ->
        World.connections w !! b = Some cb ->
        Conn.m_underlyingConnection ca = Some h ->
        Conn.m_underlyingConnection cb = Some h ->
        Conn.m_owningClient ca = Conn.m_owningClient cb
        /\ Conn.m_isInit ca = Conn.m_isInit cb
        /\ Conn.operator_bool ca = Conn.operator_bool cb).
Proof.
  intros Hreach.
  split; [intros f [H | H]; destruct f; try discriminate H; reflexivity |].
  split; [intros f [H | H]; destruct f; try discriminate H; reflexivity |].
  split; [now apply (reachable_clients_exclusive tr) |].
  do 4 (split; [reflexivity |]).
  split; [repeat split |].
  split; [intros valid; split; reflexivity |].
  pose proof (reachable_sessions_separate tr w Hreach) as Hsep.
  split; [exact Hsep |].
  intros a b ca cb h Ha Hb Hha Hhb.
  destruct Hsep as (_ & _ & S3).
  destruct (S3 a b ca cb h Ha Hb Hha Hhb) as [Ho Hi].
  split; [exact Ho |]. split; [exact Hi | exact Hi].
Qed.

Lemma move_only_types_witness :
  exists w : World.world unit,
    World.run
      [World.A_ClientCtor 0%nat (EngineOk 1%nat);
       World.A_ClientMoveCtor 0%nat 3%nat;
       World.A_ClientCtor 4%nat (EngineOk 2%nat);
       World.A_NewConnection 3%nat 1%nat (EngineOk 7%nat);
       World.A_ConnMoveCtor 1%nat 2%nat;
       World.A_ConnMoveCtor 1%nat 5%nat;
       World.A_ConnDtor 1%nat] World.initial = Some w
    /\ World.clients_exclusive w
    /\ Sharing.sessions_separate w.
Proof.
  eexists. split; [reflexivity |].
  pose proof (move_only_types (U := unit) _ _
       (Conn.Connection_ctor 0%nat (EngineOk 7%nat))
       (Conn.Connection_ctor 0%nat (EngineOk 8%nat))
       (run_reachable
          [World.A_ClientCtor 0%nat (EngineOk 1%nat);
           World.A_ClientMoveCtor 0%nat 3%nat;
           World.A_ClientCtor 4%nat (EngineOk 2%nat);
           World.A_NewConnection 3%nat 1%nat (EngineOk 7%nat);
           World.A_ConnMoveCtor 1%nat 2%nat;
           World.A_ConnMoveCtor 1%nat 5%nat;
           World.A_ConnDtor 1%nat] _ eq_refl))
    as (_ & _ & Hcl & _ & _ & _ & _ & _ & _ & Hsep & _).
  split; [exact Hcl | exact Hsep].
Defined.

(** ** Where connections come from *)

(** C8, as the claim states it, fails on the move constructor: line 73
    declares it public and defaulted, so a program can construct an
    MqttConnection from an existing one, and the new object was not made by
    a call of NewConnection. *)
Lemma connection_made_by_move :
  Decl.is_constructor Decl.Connection_move_ctor = true
  /\ Decl.public_operation Decl.Connection_move_ctor = true
  /\ exists w c,
       World.run (U := unit)
         [World.A_ClientCtor 0%nat (EngineOk 1%nat);
          World.A_NewConnection 0%nat 1%nat (EngineOk 7%nat);
          World.A_ConnMoveCtor 1%nat 2%nat] World.initial = Some w
       /\ World.connections w !! 2%nat = Some c
       /\ forall client r,
            ~ In (World.A_NewConnection client 2%nat r)
                 [World.A_ClientCtor 0%nat (EngineOk 1%nat);
                  World.A_NewConnection 0%nat 1%nat (EngineOk 7%nat);
                  World.A_ConnMoveCtor (U := unit) 1%nat 2%nat].
Proof.
  split; [reflexivity |]. split; [reflexivity |].
  eexists _, _. split; [reflexivity |].
  split; [vm_compute; reflexivity |].
  intros client r [H | [H | [H | []]]]; discriminate H.
Qed.

(** C8, amended: every MqttConnection in existence is as a call of
    MqttClient::NewConnection made it, or was moved from one that is: the
    only constructor that needs no existing connection is private, and
    MqttClient is the only friend; the copy constructor is deleted and the
    only public constructor is the move constructor.  Every connection
    carries the address of the client on which NewConnection was called, in
    a raw pointer, together with the session handle and the initialization
    flag that this call gave it. *)
Theorem connections_come_from_NewConnection {U : Type}
    (tr : list (World.action U)) (w : World.world U)
    (a : address) (c : Conn.MqttConnection U) :
  World.reachable tr w ->
  World.connections w !! a = Some c ->
  Decl.access_of Decl.Connection_ctor = Decl.Private
  /\ Decl.friends Decl.class_MqttConnection = [Decl.class_MqttClient]
  /\ Decl.definition_of Decl.Connection_copy_ctor = Decl.Deleted
  /\ (forall f, Decl.class_of f = Decl.class_MqttConnection ->
                Decl.is_constructor f = true ->
                Decl.public_operation f = true ->
                f = Decl.Connection_move_ctor)
  /\ In ("m_owningClient"%string, Decl.T_MqttClient_ptr)
        (Decl.data_members Decl.class_MqttConnection)
  /\ (forall client r,
        Conn.m_owningClient (@Client.NewConnection U client r) = Some client)
  /\ World.made_by_NewConnection tr c.
Proof.
  intros Hreach Hc.
  split; [reflexivity |]. split; [reflexivity |]. split; [reflexivity |].
  split; [intros f Hcls Hctor Hpub; destruct f; try discriminate; reflexivity |].
  split; [now left |].
  split; [intros client r; destruct r; reflexivity |].
  now apply (reachable_made_by_NewConnection tr w Hreach a).
Qed.

Lemma connections_come_from_NewConnection_witness :
  let tr : list (World.action unit) :=
    [World.A_ClientCtor 0%nat (EngineOk 1%nat);
     World.A_NewConnection 0%nat 1%nat (EngineOk 7%nat);
     World.A_ConnMoveCtor 1%nat 2%nat] in
  let made := @Client.NewConnection unit 0%nat (EngineOk 7%nat) in
  let w : World.world unit :=
    {| World.clients := {[0%nat := Client.MqttClient_ctor (EngineOk 1%nat)]};
       World.connections :=
         <[2%nat := fst (Conn.move_construct made)]>
           (<[1%nat := snd (Conn.move_construct made)]> {[1%nat := made]});
       World.live := {[7%nat]} ∪ ({[1%nat]} ∪ ∅) |} in
  World.run tr World.initial = Some w
  /\ World.made_by_NewConnection (rev tr) (fst (Conn.move_construct made)).
Proof.
  intros tr made w.
  assert (Hrun : World.run tr World.initial = Some w) by reflexivity.
  split; [exact Hrun |].
  apply (connections_come_from_NewConnection (rev tr) w 2%nat
           (fst (Conn.move_construct made)) (run_reachable tr w Hrun)).
  apply lookup_insert_eq.
Defined.

(** ** Destruction of a connection *)

(** C10: the destructor of MqttConnection is defaulted and the session
    handle is a raw pointer, so destroying a connection removes that object
    and nothing else: the engine objects that were live stay live, the
    session handle of the destroyed connection among them, and no client
    changes. *)
Theorem connection_destructor_releases_nothing {U : Type}
    (w w' : World.world U) (a : address) :
  World.exec (World.A_ConnDtor a) w = Some w' ->
  Decl.definition_of Decl.Connection_dtor = Decl.Defaulted
  /\ In ("m_underlyingConnection"%string, Decl.T_aws_mqtt_client_connection_ptr)
        (Decl.data_members Decl.class_MqttConnection)
  /\ World.live w' = World.live w
  /\ World.clients w' = World.clients w
  /\ World.connections w' = delete a (World.connections w)
  /\ (forall c h, World.connections w !! a = Some c ->
                  Conn.m_underlyingConnection c = Some h ->
                  h ∈ World.live w -> h ∈ World.live w')
  /\ (forall c client k, World.connections w !! a = Some c ->
                         Conn.m_owningClient c = Some client ->
                         World.clients w !! client = Some k ->
                         World.clients w' !! client = Some k).
Proof.
  intros Hexec. destruct (exec_ConnDtor_frame w a w' Hexec) as [-> _].
  split; [reflexivity |]. split; [right; now left |].
  repeat split; auto.
Qed.

Lemma connection_destructor_releases_nothing_witness :
  let w : World.world unit :=
    {| World.clients := {[0%nat := Client.MqttClient_ctor (EngineOk 1%nat)]};
       World.connections := {[1%nat := Client.NewConnection 0%nat (EngineOk 7%nat)]};
       World.live := {[1%nat; 7%nat]} |} in
  World.exec (World.A_ConnDtor 1%nat) w = Some (World.Connection_dtor 1%nat w)
  /\ World.live (World.Connection_dtor 1%nat w) = World.live w
  /\ World.clients (World.Connection_dtor 1%nat w) = World.clients w.
Proof.
  intros w.
  assert (Hexec : World.exec (World.A_ConnDtor 1%nat) w
                  = Some (World.Connection_dtor 1%nat w)) by reflexivity.
  split; [exact Hexec |].
  pose proof (connection_destructor_releases_nothing w _ 1%nat Hexec)
    as (_ & _ & Hlive & Hclients & _).
  split; [exact Hlive | exact Hclients].
Defined.

(** * Further properties of the code in the header *)

(** ** Setters *)

(** X1: setters of different slots commute: the connection is the same
    whichever of two handlers of different kinds is set first. *)
Theorem setters_commute {U : Type} (c : Conn.MqttConnection U)
    (hf : Cpp.std_function (@Conn.OnConnectionFailedHandler U))
    (ha : Cpp.std_function (@Conn.OnConnAckHandler U))
    (hd : Cpp.std_function (@Conn.OnDisconnectHandler U)) :
  Conn.SetOnConnAckHandler ha (Conn.SetOnConnectionFailedHandler hf c)
  = Conn.SetOnConnectionFailedHandler hf (Conn.SetOnConnAckHandler ha c)
  /\ Conn.SetOnDisconnectHandler hd (Conn.SetOnConnectionFailedHandler hf c)
     = Conn.SetOnConnectionFailedHandler hf (Conn.SetOnDisconnectHandler hd c)
  /\ Conn.SetOnDisconnectHandler hd (Conn.SetOnConnAckHandler ha c)
     = Conn.SetOnConnAckHandler ha (Conn.SetOnDisconnectHandler hd c).
Proof. repeat split. Qed.

Section MoreWorlds.
Context {U : Type}.
Implicit Types (w : World.world U) (c : Conn.MqttConnection U).

Lemma move_construct_fst c : fst (Conn.move_construct c) = c.
Proof. destruct c; reflexivity. Qed.

Lemma same_scalars_refl c : Header.same_scalars c c.
Proof. repeat split. Qed.

Lemma same_scalars_trans c1 c2 c3 :
  Header.same_scalars c1 c2 -> Header.same_scalars c2 c3 ->
  Header.same_scalars c1 c3.
Proof.
  intros (H1 & H2 & H3 & H4) (K1 & K2 & K3 & K4).
  repeat split; congruence.
Qed.

Lemma same_scalars_check c c' valid :
  Header.same_scalars c c' ->
  Conn.scalar_check valid c' = Conn.scalar_check valid c.
Proof.
  intros (H1 & H2 & H3 & H4). unfold Conn.scalar_check. congruence.
Qed.

(** What a step of a header-defined action does to the store. *)
Lemma exec_header_frame w act w' :
  Header.defined_in_header act = true -> World.exec act w = Some w' ->
  World.clients w' = World.clients w /\ World.live w' = World.live w
  /\ forall a c', World.connections w' !! a = Some c' ->
       exists b c, World.connections w !! b = Some c
                   /\ Header.same_scalars c c'.
Proof.
  intros Hhdr Hexec.
  destruct act; try discriminate Hhdr; simpl in Hexec;
    repeat match type of Hexec with
    | match ?x with _ => _ end = Some _ => destruct x eqn:?; try discriminate
    | (if ?x then _ else _) = Some _ => destruct x eqn:?; try discriminate
    end;
    injection Hexec as <-; simpl.
  all: split; [reflexivity |]; split; [reflexivity |].
  all: intros a0 c' Hc'; lookup_cases Hc'.
  all: try (eexists _, _; split; [eassumption | apply same_scalars_refl]).
  all: match goal with
       | H : World.connections _ !! ?b = Some ?m |- _ =>
           exists b, m; split; [exact H | solve [repeat split]]
       end.
Qed.

End MoreWorlds.

(** X2: in any store, a handler setter on the connection at [a] changes
    that connection's slot and nothing else: the other two slots and the
    members that are not handlers are as before, every other connection,
    every client and the engine's live objects are untouched. *)
Theorem setter_changes_one_slot {U : Type} (w : World.world U) (a : address)
    (c : Conn.MqttConnection U) :
  World.connections w !! a = Some c ->
  let framed (w' : World.world U) (c' : Conn.MqttConnection U) :=
    World.clients w' = World.clients w
    /\ World.live w' = World.live w
    /\ World.connections w' !! a = Some c'
    /\ (forall b, b <> a ->
          World.connections w' !! b = World.connections w !! b)
    /\ Header.same_scalars c c' in
  (forall h, exists w' c',
      World.exec (World.A_SetOnConnectionFailedHandler a h) w = Some w'
      /\ framed w' c'
      /\ Conn.m_onConnectionFailed c' = h
      /\ Conn.m_onConnAck c' = Conn.m_onConnAck c
      /\ Conn.m_onDisconnect c' = Conn.m_onDisconnect c)
  /\ (forall h, exists w' c',
      World.exec (World.A_SetOnConnAckHandler a h) w = Some w'
      /\ framed w' c'
      /\ Conn.m_onConnectionFailed c' = Conn.m_onConnectionFailed c
      /\ Conn.m_onConnAck c' = h
      /\ Conn.m_onDisconnect c' = Conn.m_onDisconnect c)
  /\ (forall h, exists w' c',
      World.exec (World.A_SetOnDisconnectHandler a h) w = Some w'
      /\ framed w' c'
      /\ Conn.m_onConnectionFailed c' = Conn.m_onConnectionFailed c
      /\ Conn.m_onConnAck c' = Conn.m_onConnAck c
      /\ Conn.m_onDisconnect c' = h).
Proof.
  intros Hc framed.
  assert (Hframed : forall c', Header.same_scalars c c' ->
            framed (World.with_connections w
                      (<[a := c']> (World.connections w))) c').
  { intros c' Hsame. unfold framed; simpl.
    split; [reflexivity |]. split; [reflexivity |].
    split; [apply lookup_insert_eq |].
    split; [intros b Hb; now apply lookup_insert_ne | exact Hsame]. }
  split; [| split]; intros h; simpl; rewrite Hc.
  - eexists _, (Conn.SetOnConnectionFailedHandler h c).
    split; [reflexivity |].
    split; [apply Hframed |]; repeat split.
  - eexists _, (Conn.SetOnConnAckHandler h c).
    split; [reflexivity |].
    split; [apply Hframed |]; repeat split.
  - eexists _, (Conn.SetOnDisconnectHandler h c).
    split; [reflexivity |].
    split; [apply Hframed |]; repeat split.
Qed.

Lemma setter_changes_one_slot_witness :
  let c : Conn.MqttConnection unit :=
    {| Conn.m_owningClient := Some 0%nat;
       Conn.m_underlyingConnection := Some 7%nat;
       Conn.m_onConnectionFailed := None;
       Conn.m_onConnAck := Some (fun _ _ _ u => u);
       Conn.m_onDisconnect := None;
       Conn.m_lastError := 0; Conn.m_isInit := true |} in
  let w : World.world unit :=
    {| World.clients := ∅; World.connections := {[1%nat := c]};
       World.live := {[7%nat]} |} in
  exists w' c',
    World.exec (World.A_SetOnDisconnectHandler 1%nat (Some (fun _ u => u))) w
    = Some w'
    /\ World.connections w' !! 1%nat = Some c'
    /\ Conn.m_onConnAck c' = Conn.m_onConnAck c
    /\ Conn.m_isInit c' = true.
Proof.
  intros c w.
  destruct (proj2 (proj2 (setter_changes_one_slot w 1%nat c eq_refl))
              (Some (fun _ u => u)))
    as (w' & c' & Hexec & (_ & _ & Hc' & _ & (_ & _ & _ & Hinit)) & _ & Hack & _).
  exists w', c'. repeat split; assumption.
Defined.

(** ** Moves *)

(** X3: the defaulted move of a connection gives a destination equal to the
    source before the move, member for member; a move assignment leaves
    nothing of the old destination; and the source keeps every member that
    is not a handler. *)
Theorem move_keeps_value {U : Type} (c old : Conn.MqttConnection U) :
  fst (Conn.move_construct c) = c
  /\ fst (Conn.move_assign old c) = c
  /\ Header.same_scalars c (snd (Conn.move_construct c))
  /\ Header.same_scalars c (snd (Conn.move_assign old c)).
Proof.
  split; [apply move_construct_fst |].
  split; [apply move_construct_fst |].
  repeat split.
Qed.



(** X6: in any store, moving the connection at [src] to another address
    [dst] (constructing it there when the address is free, assigning when
    it holds a connection) puts the whole source value at [dst], leaves the
    moved-from state at [src], and touches no other connection, no client
    and none of the engine's live objects. *)
Theorem move_in_world {U : Type} (w : World.world U) (src dst : address)
    (c : Conn.MqttConnection U) :
  World.connections w !! src = Some c ->
  src <> dst ->
  let moved (w' : World.world U) :=
    World.clients w' = World.clients w
    /\ World.live w' = World.live w
    /\ World.connections w' !! dst = Some c
    /\ World.connections w' !! src = Some (snd (Conn.move_construct c))
    /\ (forall b, b <> src -> b <> dst ->
          World.connections w' !! b = World.connections w !! b) in
  (World.connections w !! dst = None ->
   exists w', World.exec (World.A_ConnMoveCtor src dst) w = Some w' /\ moved w')
  /\ (forall old, World.connections w !! dst = Some old ->
      exists w', World.exec (World.A_ConnMoveAssign src dst) w = Some w'
                 /\ moved w').
Proof.
  intros Hc Hne moved.
  assert (Hmoved : moved
            (World.with_connections w
               (<[dst := fst (Conn.move_construct c)]>
                  (<[src := snd (Conn.move_construct c)]>
                     (World.connections w))))).
  { unfold moved; simpl.
    split; [reflexivity |]. split; [reflexivity |].
    split; [rewrite lookup_insert_eq; f_equal; apply move_construct_fst |].
    split; [rewrite lookup_insert_ne by congruence; apply lookup_insert_eq |].
    intros b Hb1 Hb2. now rewrite !lookup_insert_ne by congruence. }
  split.
  - intros Hdst. eexists. split; [| exact Hmoved].
    simpl. now rewrite Hc, Hdst.
  - intros old Hdst. eexists. split; [| exact Hmoved].
    simpl. rewrite Hc, Hdst. now rewrite bool_decide_eq_false_2.
Qed.

Lemma move_in_world_witness :
  let c : Conn.MqttConnection unit :=
    {| Conn.m_owningClient := Some 0%nat;
       Conn.m_underlyingConnection := Some 7%nat;
       Conn.m_onConnectionFailed := None;
       Conn.m_onConnAck := Some (fun _ _ _ u => u);
       Conn.m_onDisconnect := None;
       Conn.m_lastError := 0; Conn.m_isInit := true |} in
  let w : World.world unit :=
    {| World.clients := ∅; World.connections := {[1%nat := c]};
       World.live := {[7%nat]} |} in
  exists w',
    World.exec (World.A_ConnMoveCtor 1%nat 2%nat) w = Some w'
    /\ World.connections w' !! 2%nat = Some c.
Proof.
  intros c w.
  assert (Hne : 1%nat <> 2%nat) by discriminate.
  destruct (proj1 (move_in_world w 1%nat 2%nat c eq_refl Hne) eq_refl)
    as (w' & Hexec & _ & _ & Hdst & _).
  exists w'. split; assumption.
Defined.

(** X7: exchanging two connections by three moves (move the first to a
    free address, move-assign the second to the first, move-assign the
    temporary to the second) exchanges their whole values, handlers
    included, and leaves clients and engine objects untouched. *)
Theorem swap_by_moves {U : Type} (w : World.world U) (a b t : address)
    (ca cb : Conn.MqttConnection U) :
  World.connections w !! a = Some ca ->
  World.connections w !! b = Some cb ->
  World.connections w !! t = None ->
  a <> b ->
  exists w',
    World.run [World.A_ConnMoveCtor a t;
               World.A_ConnMoveAssign b a;
               World.A_ConnMoveAssign t b] w = Some w'
    /\ World.connections w' !! a = Some cb
    /\ World.connections w' !! b = Some ca
    /\ World.connections w' !! t = Some (snd (Conn.move_construct ca))
    /\ World.clients w' = World.clients w
    /\ World.live w' = World.live w
    /\ (forall x, x <> a -> x <> b -> x <> t ->
          World.connections w' !! x = World.connections w !! x).
Proof.
  intros Ha Hb Ht Hab.
  assert (Hat : a <> t) by congruence.
  assert (Hbt : b <> t) by congruence.
  destruct (proj1 (move_in_world w a t ca Ha Hat) Ht)
    as (w1 & Hexec1 & Hcl1 & Hlv1 & Ht1 & Ha1 & Hother1).
  assert (Hb1 : World.connections w1 !! b = Some cb).
  { rewrite Hother1 by congruence. exact Hb. }
  destruct (proj2 (move_in_world w1 b a cb Hb1 (not_eq_sym Hab)) _ Ha1)
    as (w2 & Hexec2 & Hcl2 & Hlv2 & Ha2 & Hb2 & Hother2).
  assert (Ht2 : World.connections w2 !! t = Some ca).
  { rewrite Hother2 by congruence. exact Ht1. }
  destruct (proj2 (move_in_world w2 t b ca Ht2 (not_eq_sym Hbt)) _ Hb2)
    as (w3 & Hexec3 & Hcl3 & Hlv3 & Hb3 & Ht3 & Hother3).
  exists w3. cbn [World.run]. rewrite Hexec1, Hexec2, Hexec3.
  split; [reflexivity |].
  split; [rewrite Hother3 by congruence; exact Ha2 |].
  split; [exact Hb3 |].
  split; [exact Ht3 |].
  split; [congruence |]. split; [congruence |].
  intros x Hxa Hxb Hxt.
  rewrite Hother3, Hother2, Hother1 by congruence. reflexivity.
Qed.

Lemma swap_by_moves_witness :
  let ca : Conn.MqttConnection unit :=
    {| Conn.m_owningClient := Some 0%nat;
       Conn.m_underlyingConnection := Some 7%nat;
       Conn.m_onConnectionFailed := None;
       Conn.m_onConnAck := Some (fun _ _ _ u => u);
       Conn.m_onDisconnect := None;
       Conn.m_lastError := 0; Conn.m_isInit := true |} in
  let cb : Conn.MqttConnection unit :=
    {| Conn.m_owningClient := Some 0%nat;
       Conn.m_underlyingConnection := None;
       Conn.m_onConnectionFailed := Some (fun _ u => u);
       Conn.m_onConnAck := None;
       Conn.m_onDisconnect := None;
       Conn.m_lastError := 5; Conn.m_isInit := false |} in
  let w : World.world unit :=
    {| World.clients := ∅;
       World.connections := <[1%nat := ca]> {[2%nat := cb]};
       World.live := {[7%nat]} |} in
  exists w',
    World.run [World.A_ConnMoveCtor 1%nat 3%nat;
               World.A_ConnMoveAssign 2%nat 1%nat;
               World.A_ConnMoveAssign 3%nat 2%nat] w = Some w'
    /\ World.connections w' !! 1%nat = Some cb
    /\ World.connections w' !! 2%nat = Some ca.
Proof.
  intros ca cb w.
  assert (Hne : 1%nat <> 2%nat) by discriminate.
  destruct (swap_by_moves w 1%nat 2%nat 3%nat ca cb eq_refl eq_refl eq_refl Hne)
    as (w' & Hrun & Ha & Hb & _).
  exists w'. repeat split; assumption.
Defined.

(** X8: a program made only of the operations whose code is in the header
    (the three setters, the defaulted moves and the defaulted destructor)
    never changes a client or the engine's live objects, and never changes
    or invents a member that is not a handler: every connection it leaves
    has the owning client, session handle, error code and initialization
    flag of a connection that was there before, so every check over those
    members answers as it did. *)
Theorem header_operations_keep_scalars {U : Type}
    (acts : list (World.action U)) (w w' : World.world U) :
  forallb Header.defined_in_header acts = true ->
  World.run acts w = Some w' ->
  World.clients w' = World.clients w
  /\ World.live w' = World.live w
  /\ forall a c', World.connections w' !! a = Some c' ->
       exists b c, World.connections w !! b = Some c
                   /\ Header.same_scalars c c'
                   /\ forall valid,
                        Conn.scalar_check valid c' = Conn.scalar_check valid c.
Proof.
  revert w. induction acts as [| act rest IH]; intros w Hall Hrun; simpl in *.
  - injection Hrun as <-. split; [reflexivity |]. split; [reflexivity |].
    intros a c' Hc'. exists a, c'. split; [exact Hc' |].
    split; [apply same_scalars_refl | reflexivity].
  - apply andb_prop in Hall as [Hact Hrest].
    destruct (World.exec act w) as [w1 |] eqn:Hexec; [| discriminate].
    destruct (exec_header_frame w act w1 Hact Hexec) as (Hcl1 & Hlv1 & Hsc1).
    destruct (IH w1 Hrest Hrun) as (Hcl & Hlv & Hsc).
    split; [congruence |]. split; [congruence |].
    intros a c' Hc'.
    destruct (Hsc a c' Hc') as (b1 & c1 & Hb1 & Hs1 & _).
    destruct (Hsc1 b1 c1 Hb1) as (b & c & Hb & Hs).
    exists b, c. split; [exact Hb |].
    assert (Hs' : Header.same_scalars c c')
      by (eapply same_scalars_trans; eassumption).
    split; [exact Hs' | intros valid; now apply same_scalars_check].
Qed.

Lemma header_operations_keep_scalars_witness :
  let c : Conn.MqttConnection unit :=
    {| Conn.m_owningClient := Some 0%nat;
       Conn.m_underlyingConnection := Some 7%nat;
       Conn.m_onConnectionFailed := None;
       Conn.m_onConnAck := None;
       Conn.m_onDisconnect := None;
       Conn.m_lastError := 0; Conn.m_isInit := true |} in
  let w : World.world unit :=
    {| World.clients := ∅; World.connections := {[1%nat := c]};
       World.live := {[7%nat]} |} in
  let acts : list (World.action unit) :=
    [World.A_SetOnDisconnectHandler 1%nat (Some (fun _ u => u));
     World.A_ConnMoveCtor 1%nat 2%nat;
     World.A_ConnDtor 1%nat] in
  exists w', World.run acts w = Some w' /\ World.live w' = World.live w.
Proof.
  intros c w acts.
  assert (Hrun : World.run acts w
                 = Some (World.Connection_dtor 1%nat
                           (World.with_connections w
                              (<[2%nat := fst (Conn.move_construct
                                   (Conn.SetOnDisconnectHandler
                                      (Some (fun _ u => u)) c))]>
                                 (<[1%nat := snd (Conn.move_construct
                                      (Conn.SetOnDisconnectHandler
                                         (Some (fun _ u => u)) c))]>
                                    (<[1%nat := Conn.SetOnDisconnectHandler
                                         (Some (fun _ u => u)) c]>
                                       (World.connections w)))))))
    by reflexivity.
  eexists. split; [exact Hrun |].
  apply (header_operations_keep_scalars acts w _ eq_refl Hrun).
Defined.

(** ** Declarations *)

(** X9: the member functions that are under no non-throwing exception
    specification are exactly Ping, the five private static trampolines and
    the four deleted copy operations; every other member function of the
    two classes is guarded. *)
Theorem unguarded_member_functions (f : Decl.member_function) :
  Cpp.effective_noexcept f = false
  <-> (f = Decl.Ping
       \/ Decl.definition_of f = Decl.Deleted
       \/ In f [Decl.s_onConnectionFailed; Decl.s_onConnAck;
                Decl.s_onDisconnect; Decl.s_onPublish; Decl.s_onOpComplete]).
Proof.
  split.
  - intros Hf. destruct f; try discriminate Hf;
      solve [ now left | right; left; reflexivity | right; right; simpl; tauto ].
  - intros [-> | [Hdel | Hin]]; [reflexivity | |].
    + destruct f; try discriminate Hdel; reflexivity.
    + simpl in Hin. repeat (destruct Hin as [<- | Hin]; [reflexivity |]).
      destruct Hin.
Qed.

Lemma unguarded_member_functions_witness :
  Cpp.effective_noexcept Decl.Ping = false
  /\ Cpp.effective_noexcept Decl.s_onPublish = false.
Proof.
  split.
  - apply (proj2 (unguarded_member_functions Decl.Ping)). now left.
  - apply (proj2 (unguarded_member_functions Decl.s_onPublish)).
    right; right; simpl; tauto.
Defined.

(** X10: the operations that return a packet identifier are exactly the
    ones that take a completion handler: Subscribe, Unsubscribe and
    Publish, all three public and [noexcept]. *)
Theorem packet_id_iff_completion_handler (f : Decl.member_function) :
  (Decl.return_type_of f = Decl.R_uint16_t
   <-> In Decl.EvOperationComplete (Decl.handler_params f))
  /\ (Decl.return_type_of f = Decl.R_uint16_t ->
      Decl.public_operation f = true
      /\ Decl.exception_spec_of f = Decl.Noexcept
      /\ Decl.class_of f = Decl.class_MqttConnection).
Proof.
  split; [split |].
  - intros Hf. destruct f; try discriminate Hf; simpl; tauto.
  - intros Hin. destruct f; simpl in Hin; try reflexivity;
      repeat (destruct Hin as [Hin | Hin]; [discriminate Hin |]);
      destruct Hin.
  - intros Hf. destruct f; try discriminate Hf; repeat split.
Qed.

Lemma packet_id_iff_completion_handler_witness :
  Decl.return_type_of Decl.Publish = Decl.R_uint16_t
  /\ In Decl.EvOperationComplete (Decl.handler_params Decl.Publish)
  /\ Decl.public_operation Decl.Publish = true.
Proof.
  split; [reflexivity |].
  split.
  - apply (proj1 (proj1 (packet_id_iff_completion_handler Decl.Publish))).
    reflexivity.
  - apply (proj2 (packet_id_iff_completion_handler Decl.Publish)).
    reflexivity.
Defined.

(** X11: every stored callback slot has exactly one setter, and the
    functions whose body is in the header are exactly these setters: each
    is public, [noexcept], returns nothing and takes the handler of one
    slot. *)
Theorem each_slot_has_one_setter :
  (forall f, Decl.definition_of f = Decl.InlineBody ->
     exists k, Decl.handler_params f = [k]
               /\ In k (Decl.callback_slots Decl.class_MqttConnection)
               /\ Decl.public_operation f = true
               /\ Decl.exception_spec_of f = Decl.Noexcept
               /\ Decl.return_type_of f = Decl.R_void)
  /\ (forall k, In k (Decl.callback_slots Decl.class_MqttConnection) ->
        exists f, Decl.definition_of f = Decl.InlineBody
                  /\ Decl.handler_params f = [k]
                  /\ forall g, Decl.handler_params g = [k] -> g = f).
Proof.
  split.
  - intros f Hf. destruct f; try discriminate Hf; eexists;
      (split; [reflexivity |]); simpl; repeat split; tauto.
  - intros k Hk. simpl in Hk.
    destruct Hk as [<- | [<- | [<- | []]]].
    + exists Decl.SetOnConnectionFailedHandler. repeat split.
      intros g Hg. destruct g; try discriminate Hg; reflexivity.
    + exists Decl.SetOnConnAckHandler. repeat split.
      intros g Hg. destruct g; try discriminate Hg; reflexivity.
    + exists Decl.SetOnDisconnectHandler. repeat split.
      intros g Hg. destruct g; try discriminate Hg; reflexivity.
Qed.

Lemma each_slot_has_one_setter_witness :
  exists f, Decl.definition_of f = Decl.InlineBody
            /\ Decl.handler_params f = [Decl.EvConnAck].
Proof.
  assert (Hin : In Decl.EvConnAck
                  (Decl.callback_slots Decl.class_MqttConnection))
    by (simpl; tauto).
  destruct (proj2 each_slot_has_one_setter Decl.EvConnAck Hin)
    as (f & Hdef & Hparams & _).
  exists f. split; assumption.
Defined.
